(** * SaveDataModelModal: the "Save as dbt's Model" dialog of SQL Lab

    A shallow embedding of the two copies of the component found in the
    repository:

    - [Index]   : [superset-frontend/src/SqlLab/components/SaveDataModelModal/index.tsx]
    - [Part000] : the second copy (the one that also carries [updateDataset])

    JavaScript strings are sequences of UTF-16 code units, React state cells
    are fields of a record threaded through the event handlers, and every
    call of a caller-supplied prop ([handleModelName], [onHide], ...) or of
    [console.log] is recorded, in order, in a trace. *)

From Stdlib Require Import String Ascii DecimalString.
From Stdlib Require DecimalPos DecimalZ DecimalFacts.
From Stdlib Require Import List NArith ZArith Bool Lia.
Import ListNotations.

Set Implicit Arguments.

(** ** JavaScript strings *)

(** One UTF-16 code unit. *)
Definition char16 := N.

(** A JavaScript string: [s.length] is [length s]. *)
Definition jsstring := list char16.

(** An ASCII string literal of the source, as code units. *)
Definition lit (s : string) : jsstring :=
  map N_of_ascii (list_ascii_of_string s).

(** ** Regular expressions

    The fragment of the RegExp syntax that the source uses: the assertions
    [^] and [$] (no [m] flag), a character class made of ranges, bounded
    greedy repetition and concatenation.  The matcher is the backtracking
    matcher of the language definition, in continuation-passing style: a
    continuation receives the position reached and the rest of the input. *)
Module RegExp.

Inductive regex : Type :=
| Bol                                   (* ^ *)
| Eol                                   (* $ *)
| Class (ranges : list (N * N))         (* [a-b...] *)
| Cat (r1 r2 : regex)                   (* r1 r2 *)
| Rep (r : regex) (lo hi : nat).        (* r{lo,hi} *)

Definition cont := nat -> jsstring -> bool.

Definition in_range (c : char16) (rg : N * N) : bool :=
  (fst rg <=? c)%N && (c <=? snd rg)%N.

Definition in_ranges (ranges : list (N * N)) (c : char16) : bool :=
  existsb (in_range c) ranges.

(** [body{lo,hi}], greedy: one more iteration is tried first, and the
    continuation is tried once the lower bound has been reached.  (An
    iteration that consumes nothing is not singled out: the bodies used
    here consume one character.) *)
Fixpoint repeat_match (body : nat -> jsstring -> cont -> bool)
  (lo hi : nat) (pos : nat) (inp : jsstring) (k : cont) {struct hi} : bool :=
  match hi with
  | O => if Nat.eqb lo 0 then k pos inp else false
  | S hi' =>
      body pos inp (fun p i => repeat_match body (pred lo) hi' p i k)
      || (if Nat.eqb lo 0 then k pos inp else false)
  end.

Fixpoint matcher (r : regex) (pos : nat) (inp : jsstring) (k : cont)
  {struct r} : bool :=
  match r with
  | Bol => if Nat.eqb pos 0 then k pos inp else false
  | Eol => match inp with [] => k pos inp | _ :: _ => false end
  | Class ranges =>
      match inp with
      | c :: rest => if in_ranges ranges c then k (S pos) rest else false
      | [] => false
      end
  | Cat r1 r2 => matcher r1 pos inp (fun p i => matcher r2 p i k)
  | Rep r' lo hi => repeat_match (matcher r') lo hi pos inp k
  end.

(** [RegExp.prototype.test] of a regex without the [g] and [y] flags: the
    search starts at index 0 and tries every start index up to the length. *)
Definition test (r : regex) (s : jsstring) : bool :=
  existsb (fun i => matcher r i (skipn i s) (fun _ _ => true))
          (seq 0 (S (length s))).

End RegExp.

(** [const regexCheck = /^[a-zA-Z0-9_]{1,63}$/;] *)
Definition word_ranges : list (N * N) :=
  [ (97, 122) ; (65, 90) ; (48, 57) ; (95, 95) ]%N.

Definition regexCheck : RegExp.regex :=
  RegExp.Cat RegExp.Bol
    (RegExp.Cat (RegExp.Rep (RegExp.Class word_ranges) 1 63) RegExp.Eol).

(** The character set of the pattern, spelled out: an ASCII letter, a digit
    or the underscore. *)
Definition is_word_char (c : char16) : bool :=
  ((97 <=? c) && (c <=? 122) || (65 <=? c) && (c <=? 90)
   || (48 <=? c) && (c <=? 57) || (c =? 95))%N.

(** ** JavaScript values used by the component *)

(** A property that may be [undefined] (or [null]): [None]. *)
Definition truthy (v : option jsstring) : bool :=
  match v with
  | Some (_ :: _) => true
  | Some [] => false          (* the empty string is falsy *)
  | None => false
  end.

(** [a || b] where both operands may be undefined. *)
Definition js_or (a b : option jsstring) : option jsstring :=
  if truthy a then a else b.

(** [a || b] where [b] is a string: the result is a string. *)
Definition or_else (a : option jsstring) (b : jsstring) : jsstring :=
  match a with
  | Some (c :: s) => c :: s
  | _ => b
  end.

(** [Number(v)] on a value that already is a number. *)
Definition Number (v : Z) : Z := v.

(** What [useQueryEditor] hands to the component, as far as it is read. *)
Module Query.
Record t : Type := mk { name : option jsstring; description : option jsstring }.
End Query.

(** ** Calls that leave the component *)

Inductive logged : Type :=
| LogStr (s : jsstring)
| LogNum (n : Z).

(** One call of a caller-supplied prop, or of [console.log]. *)
Inductive call : Type :=
| HandleModelName (modelName : jsstring)
| HandleDescription (description : jsstring)
| HandleMaterializationNum (materializationNum : Z)
| RunQueryModel (c : bool)
| OnHide
| ConsoleLog (v : logged).

Definition trace := list call.

Definition is_log (c : call) : bool :=
  match c with ConsoleLog _ => true | _ => false end.

(** The calls received by the caller: the trace without the console. *)
Definition erase_logs (tr : trace) : trace :=
  filter (fun c => negb (is_log c)) tr.

(** ** Event handlers: state and trace *)

(** A handler reads and updates the state cells of the component and
    appends to the trace. *)
Definition M (S A : Type) : Type := S -> A * S * trace.

Definition ret {S A : Type} (a : A) : M S A := fun st => (a, st, []).

Definition bind {S A B : Type} (m : M S A) (f : A -> M S B) : M S B :=
  fun st =>
    let '(a, st1, tr1) := m st in
    let '(b, st2, tr2) := f a st1 in
    (b, st2, tr1 ++ tr2).

Definition emit {S : Type} (c : call) : M S unit := fun st => (tt, st, [c]).

Definition modify {S : Type} (f : S -> S) : M S unit :=
  fun st => (tt, f st, []).

Notation "c1 ;; c2" := (bind c1 (fun _ => c2))
  (at level 61, right associativity).

(** State and trace after a handler has run. *)
Definition after {S : Type} (h : M S unit) (st : S) : S * trace :=
  let '(_, st', tr) := h st in (st', tr).

(** The props that are functions: a call is recorded with its argument. *)
Definition handleModelName {S : Type} (modelName : jsstring) : M S unit :=
  emit (HandleModelName modelName).

Definition handleDescription {S : Type} (description : jsstring) : M S unit :=
  emit (HandleDescription description).

Definition handleMaterializationNum {S : Type} (materializationNum : Z)
  : M S unit :=
  emit (HandleMaterializationNum materializationNum).

Definition runQueryModel {S : Type} (c : bool) : M S unit :=
  emit (RunQueryModel c).

Definition onHide {S : Type} : M S unit := emit OnHide.

Definition console_log {S : Type} (v : logged) : M S unit :=
  emit (ConsoleLog v).

(** The props that are data. *)
Record Props : Type := mkProps { visible : bool; allowAsync : bool }.

(** ** The rendered dialog and its events *)

(** What the JSX shows, as far as it depends on state and props. *)
Record View : Type := mkView {
  show : bool;                       (* StyledModal show *)
  title : jsstring;                  (* StyledModal title *)
  submit_disabled : bool;            (* Button disabled *)
  submit_text : jsstring;            (* Button children *)
  name_value : jsstring;             (* Input value *)
  radio_value : Z;                   (* Radio.Group value *)
  radios : list (Z * jsstring);      (* Radio value and text, in order *)
  description_value : jsstring       (* TextArea value *)
}.

Inductive event : Type :=
| LabelInput (value : jsstring)        (* change of the Name input *)
| DescriptionInput (value : jsstring)  (* change of the Description area *)
| RadioSelect (value : Z)              (* the group reports this Radio *)
| SubmitClick                          (* click on the footer button *)
| ModalHide.                           (* the modal asks to be closed *)

(** The events the rendered dialog can deliver: nothing while hidden, the
    value of a radio only if that radio is rendered, a click only on an
    enabled button. *)
Definition offered (v : View) (e : event) : bool :=
  show v &&
  match e with
  | RadioSelect k => existsb (Z.eqb k) (map fst (radios v))
  | SubmitClick => negb (submit_disabled v)
  | LabelInput _ | DescriptionInput _ | ModalHide => true
  end.

(** A sequence of events, each delivered to the dialog as rendered from the
    state the previous one left. *)
Fixpoint run_events {S : Type} (dispatch : event -> S -> option (S * trace))
  (evs : list event) (st : S) : option (S * trace) :=
  match evs with
  | [] => Some (st, [])
  | e :: evs' =>
      match dispatch e st with
      | None => None
      | Some (st1, tr1) =>
          match run_events dispatch evs' st1 with
          | None => None
          | Some (st2, tr2) => Some (st2, tr1 ++ tr2)
          end
      end
  end.

(** ** index.tsx *)
Module Index.

(** [onClickModel]: the second parameter has a default, a function that
    does nothing, used when the argument is undefined. *)
Definition onClickModel {S : Type} (allowAsync : bool)
  (runQueryModel : option (bool -> M S unit)) : M S unit :=
  let runQueryModel :=
    match runQueryModel with
    | Some f => f
    | None => fun _ => ret tt
    end in
  if allowAsync then runQueryModel true else runQueryModel false.

(** The four [useState] cells. *)
Record State : Type := mkState {
  label : jsstring;
  description : jsstring;
  isDisabled : bool;
  materializationNumRadio : Z
}.

Definition setLabel (v : jsstring) : M State unit :=
  modify (fun st =>
    mkState v (description st) (isDisabled st) (materializationNumRadio st)).

Definition setDescription (v : jsstring) : M State unit :=
  modify (fun st =>
    mkState (label st) v (isDisabled st) (materializationNumRadio st)).

Definition setIsDisabled (b : bool) : M State unit :=
  modify (fun st =>
    mkState (label st) (description st) b (materializationNumRadio st)).

Definition setMaterializationNumRadio (n : Z) : M State unit :=
  modify (fun st =>
    mkState (label st) (description st) (isDisabled st) n).

Definition onLabelChange (e_target_value : jsstring) : M State unit :=
  setLabel e_target_value ;;
  handleModelName e_target_value ;;
  setIsDisabled (negb (RegExp.test regexCheck e_target_value)).

Definition onDescriptionChange (e_target_value : jsstring) : M State unit :=
  setDescription e_target_value ;;
  handleDescription e_target_value.

Definition handleMaterializationNumRadio (materializationNumRadio : Z)
  : M State unit :=
  handleMaterializationNum materializationNumRadio ;;
  setMaterializationNumRadio materializationNumRadio.

(** [onClick] of the footer button. *)
Definition footer_onClick (props : Props) : M State unit :=
  onClickModel (allowAsync props) (Some runQueryModel) ;;
  onHide.

(** [onChange] of the radio group. *)
Definition radio_onChange (e_target_value : Z) : M State unit :=
  handleMaterializationNumRadio (Number e_target_value).

(** The handler the JSX attaches to each event. *)
Definition handler (props : Props) (e : event) : M State unit :=
  match e with
  | LabelInput v => onLabelChange v
  | DescriptionInput v => onDescriptionChange v
  | RadioSelect k => radio_onChange k
  | SubmitClick => footer_onClick props
  | ModalHide => onHide
  end.

Section WithTranslation.

(** The translation function [t] of the application. *)
Variable t : jsstring -> jsstring.

Definition defaultLabel (query : Query.t) : jsstring :=
  or_else (js_or (Query.name query) (Query.description query))
          (t (lit "Undefined")).

(** First render: the initial values of the state cells.  The body of the
    component calls hooks only, none of the function props. *)
Definition mount (query : Query.t) : State * trace :=
  ( {| label := defaultLabel query;
       description := or_else (Query.description query) (lit "");
       isDisabled := true;
       materializationNumRadio := 1 |},
    [] ).

(** The returned JSX. *)
Definition SaveDataModelModal (props : Props) (st : State) : View :=
  {| show := visible props;
     title := t (lit "Save as dbt's Model");
     submit_disabled := isDisabled st;
     submit_text := t (lit "Save as Model");
     name_value := label st;
     radio_value := materializationNumRadio st;
     radios := [ (1, t (lit "Table")) ; (2, t (lit "View")) ;
                 (3, t (lit "Incremental")) ]%Z;
     description_value := description st |}.

Definition dispatch (props : Props) (e : event) (st : State)
  : option (State * trace) :=
  if offered (SaveDataModelModal props st) e
  then Some (after (handler props e) st)
  else None.

(** The dialog from its first render through a sequence of events. *)
Definition session (props : Props) (query : Query.t) (evs : list event)
  : option (State * trace) :=
  let '(st0, tr0) := mount query in
  match run_events (dispatch props) evs st0 with
  | Some (st, tr) => Some (st, tr0 ++ tr)
  | None => None
  end.

End WithTranslation.

End Index.

(** ** JSON values and the HTTP client *)

#[local] Unset Elimination Schemes.

Inductive JsonValue : Type :=
| JNull
| JBool (b : bool)
| JNum (n : Z)
| JStr (s : jsstring)
| JArr (items : list JsonValue)
| JObj (fields : list (jsstring * JsonValue)).

#[local] Set Elimination Schemes.

Definition JsonObject := list (jsstring * JsonValue).

(** Property access [o.key]: [None] is [undefined]. *)
Fixpoint get (key : jsstring) (o : JsonObject) : option JsonValue :=
  match o with
  | [] => None
  | (k, v) :: rest =>
      if list_eq_dec N.eq_dec k key then Some v else get key rest
  end.

(** The argument of [SupersetClient.put]. *)
Record RequestConfig : Type := mkRequest {
  endpoint : jsstring;
  headers : list (jsstring * jsstring);
  body : jsstring
}.

(** What the client resolves to, as far as it is read. *)
Record JsonResponse : Type := mkResponse { json : JsonObject }.

(** Template literals: a number that is an integer prints in decimal, a
    boolean as [true] or [false]. *)
Definition Number_toString (n : Z) : jsstring :=
  lit (NilZero.string_of_int (Z.to_int n)).

Definition Boolean_toString (b : bool) : jsstring :=
  if b then lit "true" else lit "false".

(** Reading a decimal numeral, by Horner's rule: the digits from left to
    right, after an optional minus sign.  This is the arithmetic meaning of
    a numeral; it shares nothing with the printing above. *)
Fixpoint digits_value (acc : Z) (s : jsstring) : option Z :=
  match s with
  | [] => Some acc
  | c :: rest =>
      if (48 <=? c)%N && (c <=? 57)%N
      then digits_value (10 * acc + Z.of_N (c - 48)) rest
      else None
  end.

Definition decimal_value (s : jsstring) : option Z :=
  match s with
  | [] => None
  | c :: rest =>
      if (c =? 45)%N
      then match rest with
           | [] => None
           | _ :: _ => option_map Z.opp (digits_value 0 rest)
           end
      else digits_value 0 s
  end.

(** The numeral has no leading zero and is not a signed zero: it is the
    one numeral of its value. *)
Definition canonical_decimal (s : jsstring) : bool :=
  match s with
  | [] => false
  | c :: rest =>
      if (c =? 45)%N
      then match rest with
           | [] => false
           | c' :: _ => (49 <=? c')%N && (c' <=? 57)%N
           end
      else match rest with
           | [] => (48 <=? c)%N && (c <=? 57)%N
           | _ :: _ => (49 <=? c)%N && (c <=? 57)%N
           end
  end.

(** The HTTP methods of the client. *)
Inductive Method : Type := GET | POST | PUT | DELETE.

Section Async.

(** The reasons a promise can be rejected with. *)
Variable E : Type.

(** An asynchronous computation: settled, or waiting for the answer to a
    request made with some method. *)
Inductive promise (A : Type) : Type :=
| Resolve (a : A)
| Rejected (e : E)
| ClientRequest (m : Method) (rq : RequestConfig)
    (k : E + JsonResponse -> promise A).

Arguments Resolve {A} a.
Arguments Rejected {A} e.
Arguments ClientRequest {A} m rq k.

(** [SupersetClient.request]: one request; the promise is rejected when
    the client reports an error. *)
Definition SupersetClient_request (m : Method) (rq : RequestConfig)
  : promise JsonResponse :=
  ClientRequest m rq (fun r =>
    match r with
    | inl e => Rejected e
    | inr data => Resolve data
    end).

(** [SupersetClient.put(rq)]: the request with the method PUT. *)
Definition SupersetClient_put (rq : RequestConfig) : promise JsonResponse :=
  SupersetClient_request PUT rq.

(** [const x = await p; k x] inside an async function without try/catch: a
    rejection of [p] rejects the function's own promise. *)
Fixpoint await {A B : Type} (p : promise A) (k : A -> promise B)
  : promise B :=
  match p with
  | Resolve a => k a
  | Rejected e => Rejected e
  | ClientRequest m rq k' => ClientRequest m rq (fun r => await (k' r) k)
  end.

(** Running a computation against a server: [server n rq] answers the
    request number [n].  The result is the list of requests sent, in order,
    and how the promise settled.  [settle] lists the configurations of the
    requests, [exchange] each request with its method. *)
Fixpoint settle {A : Type} (server : nat -> RequestConfig -> E + JsonResponse)
  (sent : list RequestConfig) (p : promise A)
  : list RequestConfig * (E + A) :=
  match p with
  | Resolve a => (sent, inr a)
  | Rejected e => (sent, inl e)
  | ClientRequest _ rq k =>
      settle server (sent ++ [rq]) (k (server (length sent) rq))
  end.

Fixpoint exchange {A : Type}
  (server : nat -> RequestConfig -> E + JsonResponse)
  (sent : list (Method * RequestConfig)) (p : promise A)
  : list (Method * RequestConfig) * (E + A) :=
  match p with
  | Resolve a => (sent, inr a)
  | Rejected e => (sent, inl e)
  | ClientRequest m rq k =>
      exchange server (sent ++ [(m, rq)]) (k (server (length sent) rq))
  end.

End Async.

Arguments Resolve {E A} a.
Arguments Rejected {E A} e.
Arguments ClientRequest {E A} m rq k.

(** ** The second copy of the component, with [updateDataset] *)
Module Part000.

Section UpdateDataset.

Variable E : Type.

(** [JSON.stringify] of the platform. *)
Variable JSON_stringify : JsonValue -> jsstring.

(** The object literal that is serialised into the body; [columns] are
    records, [owners] numbers. *)
Definition payload (dbId : Z) (sql : jsstring) (columns : list JsonObject)
  (owners : list Z) : JsonValue :=
  JObj [ (lit "sql", JStr sql) ;
         (lit "columns", JArr (map JObj columns)) ;
         (lit "owners", JArr (map JNum owners)) ;
         (lit "database_id", JNum dbId) ].

Definition updateDataset (dbId datasetId : Z) (sql : jsstring)
  (columns : list JsonObject) (owners : list Z) (overrideColumns : bool)
  : promise E (option JsonValue) :=
  let endpoint :=
    lit "api/v1/dataset/" ++ Number_toString datasetId
    ++ lit "?override_columns=" ++ Boolean_toString overrideColumns in
  let headers := [ (lit "Content-Type", lit "application/json") ] in
  let body := JSON_stringify (payload dbId sql columns owners) in
  await (SupersetClient_put E (mkRequest endpoint headers body))
        (fun data => Resolve (get (lit "result") (json data))).

End UpdateDataset.

Definition onClickModel {S : Type} (allowAsync : bool)
  (runQueryModel : option (bool -> M S unit)) : M S unit :=
  let runQueryModel :=
    match runQueryModel with
    | Some f => f
    | None => fun _ => ret tt
    end in
  console_log (LogStr (lit "run query model click")) ;;
  if allowAsync then runQueryModel true else runQueryModel false.

(** The three [useState] cells. *)
Record State : Type := mkState {
  label : jsstring;
  description : jsstring;
  materializationNumRadio : Z
}.

Definition setLabel (v : jsstring) : M State unit :=
  modify (fun st => mkState v (description st) (materializationNumRadio st)).

Definition setDescription (v : jsstring) : M State unit :=
  modify (fun st => mkState (label st) v (materializationNumRadio st)).

Definition setMaterializationNumRadio (n : Z) : M State unit :=
  modify (fun st => mkState (label st) (description st) n).

Definition onLabelChange (e_target_value : jsstring) : M State unit :=
  setLabel e_target_value ;;
  handleModelName e_target_value.

Definition onDescriptionChange (e_target_value : jsstring) : M State unit :=
  setDescription e_target_value ;;
  handleDescription e_target_value.

Definition handleMaterializationNumRadio (materializationNumRadio : Z)
  : M State unit :=
  handleMaterializationNum materializationNumRadio ;;
  setMaterializationNumRadio materializationNumRadio ;;
  console_log (LogStr (lit "materialize num radio")) ;;
  console_log (LogNum materializationNumRadio).

Definition footer_onClick (props : Props) : M State unit :=
  onClickModel (allowAsync props) (Some runQueryModel) ;;
  onHide.

Definition radio_onChange (e_target_value : Z) : M State unit :=
  handleMaterializationNumRadio (Number e_target_value).

Definition handler (props : Props) (e : event) : M State unit :=
  match e with
  | LabelInput v => onLabelChange v
  | DescriptionInput v => onDescriptionChange v
  | RadioSelect k => radio_onChange k
  | SubmitClick => footer_onClick props
  | ModalHide => onHide
  end.

Section WithTranslation.

Variable t : jsstring -> jsstring.

Definition defaultLabel (query : Query.t) : jsstring :=
  or_else (js_or (Query.name query) (Query.description query))
          (t (lit "Undefined")).

Definition mount (query : Query.t) : State * trace :=
  ( {| label := defaultLabel query;
       description := or_else (Query.description query) (lit "");
       materializationNumRadio := 1 |},
    [] ).

(** The returned JSX: the button has no [disabled] attribute, and the
    group has a fourth radio (its text is spelled as in the source). *)
Definition SaveDataModelModal (props : Props) (st : State) : View :=
  {| show := visible props;
     title := t (lit "Save as dbt's Model");
     submit_disabled := false;
     submit_text := t (lit "Save as Model");
     name_value := label st;
     radio_value := materializationNumRadio st;
     radios := [ (1, t (lit "Table")) ; (2, t (lit "View")) ;
                 (3, t (lit "Incremental")) ; (4, t (lit "Ephemereal")) ]%Z;
     description_value := description st |}.

Definition dispatch (props : Props) (e : event) (st : State)
  : option (State * trace) :=
  if offered (SaveDataModelModal props st) e
  then Some (after (handler props e) st)
  else None.

Definition session (props : Props) (query : Query.t) (evs : list event)
  : option (State * trace) :=
  let '(st0, tr0) := mount query in
  match run_events (dispatch props) evs st0 with
  | Some (st, tr) => Some (st, tr0 ++ tr)
  | None => None
  end.

End WithTranslation.

End Part000.

(** ** The two copies side by side *)

(** The state of the second copy has the cells of the first but the
    submit gate. *)
Definition forget (st : Index.State) : Part000.State :=
  {| Part000.label := Index.label st;
     Part000.description := Index.description st;
     Part000.materializationNumRadio := Index.materializationNumRadio st |}.

Definition is_RadioSelect (e : event) : bool :=
  match e with RadioSelect _ => true | _ => false end.

Definition is_fourth_radio (e : event) : bool :=
  match e with RadioSelect k => Z.eqb k 4 | _ => false end.

Definition is_SubmitClick (e : event) : bool :=
  match e with SubmitClick => true | _ => false end.

Definition is_materialization_call (c : call) : bool :=
  match c with HandleMaterializationNum _ => true | _ => false end.

(** ** The label default, in the words of the specification

    Following the spec's words: the query's name if present, otherwise the
    query's description, otherwise the placeholder. *)
Definition spec_defaultLabel (t : jsstring -> jsstring) (query : Query.t)
  : jsstring :=
  match Query.name query with
  | Some n => n
  | None =>
      match Query.description query with
      | Some d => d
      | None => t (lit "Undefined")
      end
  end.

(** The identity translation (no catalogue loaded). *)
Definition t_id (s : jsstring) : jsstring := s.

(** The values chosen by the radio events of a sequence, in order. *)
Definition selections (evs : list event) : list Z :=
  flat_map (fun e => match e with RadioSelect k => [k] | _ => [] end) evs.

(** ** What the caller has been told

    Vocabulary for the properties of whole sessions: the last value of a
    kind that a trace carries, and the last label typed in a sequence of
    events. *)

Definition model_name_of (c : call) : option jsstring :=
  match c with HandleModelName v => Some v | _ => None end.

Definition description_of (c : call) : option jsstring :=
  match c with HandleDescription v => Some v | _ => None end.

Definition materialization_of (c : call) : option Z :=
  match c with HandleMaterializationNum k => Some k | _ => None end.

(** The last value that [pick] finds in [tr]; [known] if it finds none. *)
Definition received {A : Type} (pick : call -> option A) (known : option A)
  (tr : trace) : option A :=
  fold_left (fun k c => match pick c with Some a => Some a | None => k end)
            tr known.

Definition or_default {A : Type} (o : option A) (d : A) : A :=
  match o with Some a => a | None => d end.

(** The last label typed in [evs]; [known] if none was typed. *)
Definition label_after (known : option jsstring) (evs : list event)
  : option jsstring :=
  fold_left (fun k e => match e with LabelInput v => Some v | _ => k end)
            evs known.

(** The value of [isDisabled] that goes with a last typed label. *)
Definition gate (known : option jsstring) : bool :=
  match known with
  | Some v => negb (RegExp.test regexCheck v)
  | None => true
  end.

(** Every [runQueryModel] of the trace comes when the last model name the
    caller was given passes [regexCheck]. *)
Fixpoint runs_validated (known : option jsstring) (tr : trace) : bool :=
  match tr with
  | [] => true
  | HandleModelName v :: tr' => runs_validated (Some v) tr'
  | RunQueryModel _ :: tr' => negb (gate known) && runs_validated known tr'
  | _ :: tr' => runs_validated known tr'
  end.

Definition is_run_call (c : call) : bool :=
  match c with RunQueryModel _ => true | _ => false end.

Definition is_hide_call (c : call) : bool :=
  match c with OnHide => true | _ => false end.

(** The events whose handler calls [onHide]. *)
Definition closes (e : event) : bool :=
  match e with SubmitClick | ModalHide => true | _ => false end.

(** The sequences of events that the submit gate and the three radios of
    the first copy let through: no fourth radio, and a click on the submit
    button only while the last label typed passes [regexCheck]. *)
Fixpoint admits (known : option jsstring) (evs : list event) : bool :=
  match evs with
  | [] => true
  | LabelInput v :: evs' => admits (Some v) evs'
  | SubmitClick :: evs' => negb (gate known) && admits known evs'
  | RadioSelect k :: evs' => negb (Z.eqb k 4) && admits known evs'
  | _ :: evs' => admits known evs'
  end.

(** ** Regular expressions: the matcher on the label pattern *)

Unset Implicit Arguments.

Lemma in_ranges_word (c : char16) :
  RegExp.in_ranges word_ranges c = is_word_char c.
Proof.
  unfold RegExp.in_ranges, word_ranges, is_word_char, RegExp.in_range; simpl.
  rewrite orb_false_r, !orb_assoc.
  f_equal.
  destruct (N.eqb_spec c 95) as [-> | Hne]; [reflexivity |].
  apply andb_false_iff.
  destruct (N.leb_spec 95 c); [right; apply N.leb_gt; lia | left; reflexivity].
Qed.

Lemma forallb_word (s : jsstring) :
  forallb (RegExp.in_ranges word_ranges) s = forallb is_word_char s.
Proof.
  induction s as [| c s IH]; [reflexivity |].
  cbn [forallb]. now rewrite in_ranges_word, IH.
Qed.

(** A bounded repetition of a character class consumes some [n] characters
    of the class, [lo <= n <= hi], and hands over to the continuation. *)
Lemma repeat_class_spec (ranges : list (N * N)) (k : RegExp.cont) :
  forall hi lo pos inp,
    RegExp.repeat_match (RegExp.matcher (RegExp.Class ranges)) lo hi pos inp k
      = true
    <-> exists n,
        lo <= n <= hi /\ n <= length inp
        /\ forallb (RegExp.in_ranges ranges) (firstn n inp) = true
        /\ k (pos + n) (skipn n inp) = true.
Proof.
  induction hi as [| hi IH]; intros lo pos inp; simpl.
  - destruct (Nat.eqb_spec lo 0) as [-> | Hlo].
    + split.
      * intros Hk. exists 0. rewrite Nat.add_0_r. simpl. repeat split; auto; lia.
      * intros (n & Hn & _ & _ & Hk).
        assert (n = 0) by lia. subst n. now rewrite Nat.add_0_r in Hk.
    + split; [discriminate |]. intros (n & Hn & _). lia.
  - rewrite orb_true_iff. split.
    + intros [Hiter | Hstop].
      * destruct inp as [| c rest]; [discriminate |].
        destruct (RegExp.in_ranges ranges c) eqn:Hc; [| discriminate].
        apply IH in Hiter. destruct Hiter as (n & Hn & Hlen & Hall & Hk).
        exists (S n). simpl. rewrite Hc, Hall.
        replace (pos + S n) with (S pos + n) by lia.
        repeat split; auto; lia.
      * destruct (Nat.eqb_spec lo 0) as [-> | Hlo]; [| discriminate].
        exists 0. rewrite Nat.add_0_r. simpl. repeat split; auto; lia.
    + intros (n & Hn & Hlen & Hall & Hk).
      destruct n as [| n].
      * right. assert (lo = 0) by lia. subst lo. simpl.
        now rewrite Nat.add_0_r in Hk.
      * left. destruct inp as [| c rest]; [simpl in Hlen; lia |].
        simpl in Hall, Hk, Hlen. apply andb_true_iff in Hall.
        destruct Hall as [Hc Hall]. rewrite Hc.
        apply IH. exists n.
        replace (S pos + n) with (pos + S n) by lia.
        repeat split; auto; lia.
Qed.

(** With [^] in front, only the attempt at index 0 can succeed. *)
Lemma test_anchored (r : RegExp.regex) (s : jsstring) :
  RegExp.test (RegExp.Cat RegExp.Bol r) s
  = RegExp.matcher r 0 s (fun _ _ => true).
Proof.
  unfold RegExp.test. cbn [seq existsb].
  assert (Hrest : forall l, (forall i, In i l -> i <> 0) ->
            existsb (fun i => RegExp.matcher (RegExp.Cat RegExp.Bol r) i
                                (skipn i s) (fun _ _ => true)) l = false).
  { induction l as [| i l IHl]; intros Hl; [reflexivity |].
    simpl. destruct (Nat.eqb_spec i 0) as [Hi | _].
    - exfalso. apply (Hl i); [now left | exact Hi].
    - simpl. apply IHl. intros j Hj. apply Hl. now right. }
  rewrite Hrest.
  - now rewrite orb_false_r.
  - intros i Hi. apply in_seq in Hi. lia.
Qed.

(** The pattern accepts exactly the strings of 1 to 63 code units that are
    all letters, digits or underscores. *)
Lemma regexCheck_test_iff (s : jsstring) :
  RegExp.test regexCheck s = true
  <-> 1 <= length s <= 63 /\ forallb is_word_char s = true.
Proof.
  unfold regexCheck. rewrite test_anchored.
  change (RegExp.matcher _ 0 s _)
    with (RegExp.repeat_match (RegExp.matcher (RegExp.Class word_ranges))
            1 63 0 s
            (fun p i => RegExp.matcher RegExp.Eol p i (fun _ _ => true))).
  rewrite repeat_class_spec. split.
  - intros (n & Hn & Hlen & Hall & Hk). simpl in Hk.
    destruct (skipn n s) eqn:Hskip; [| discriminate].
    assert (Hnl : n = length s).
    { pose proof (length_skipn n s) as Hl. rewrite Hskip in Hl.
      simpl in Hl. lia. }
    subst n. rewrite firstn_all, forallb_word in Hall. split; [lia | exact Hall].
  - intros [Hlen Hall]. exists (length s).
    rewrite firstn_all, skipn_all, forallb_word.
    repeat split; try lia. exact Hall.
Qed.

(** The same, with propositions: which label changes enable the button. *)
Lemma regexCheck_accepts (s : jsstring) :
  1 <= length s <= 63 ->
  (forall c, In c s -> is_word_char c = true) ->
  RegExp.test regexCheck s = true.
Proof.
  intros Hlen Hall. apply regexCheck_test_iff. split; [exact Hlen |].
  apply forallb_forall. exact Hall.
Qed.

Lemma regexCheck_rejects (s : jsstring) :
  length s = 0 \/ 63 < length s
  \/ (exists c, In c s /\ is_word_char c = false) ->
  RegExp.test regexCheck s = false.
Proof.
  intros Hbad. apply not_true_is_false. intros Hok.
  apply regexCheck_test_iff in Hok. destruct Hok as [Hlen Hall].
  destruct Hbad as [H0 | [H64 | (c & Hin & Hc)]]; try lia.
  rewrite forallb_forall in Hall. rewrite (Hall c Hin) in Hc. discriminate.
Qed.

Lemma regexCheck_test_eq (s : jsstring) :
  RegExp.test regexCheck s
  = (1 <=? length s) && (length s <=? 63) && forallb is_word_char s.
Proof.
  apply eq_true_iff_eq. rewrite regexCheck_test_iff.
  rewrite !andb_true_iff, !Nat.leb_le. tauto.
Qed.

(** The edge cases the specification lists. *)
Example regexCheck_empty : RegExp.test regexCheck (lit "") = false.
Proof. reflexivity. Qed.

Example regexCheck_63 :
  RegExp.test regexCheck (repeat 97%N 63) = true.
Proof. vm_compute. reflexivity. Qed.

Example regexCheck_64 :
  RegExp.test regexCheck (repeat 97%N 64) = false.
Proof. vm_compute. reflexivity. Qed.

Example regexCheck_space : RegExp.test regexCheck (lit "my model") = false.
Proof. vm_compute. reflexivity. Qed.

Example regexCheck_hyphen : RegExp.test regexCheck (lit "my-model") = false.
Proof. vm_compute. reflexivity. Qed.

(** U+00E9 and a surrogate pair. *)
Example regexCheck_unicode :
  RegExp.test regexCheck [109; 233]%N = false
  /\ RegExp.test regexCheck [55357; 56832]%N = false.
Proof. split; vm_compute; reflexivity. Qed.

Example regexCheck_trailing_newline :
  RegExp.test regexCheck (lit "model" ++ [10%N]) = false.
Proof. vm_compute. reflexivity. Qed.

Example regexCheck_word : RegExp.test regexCheck (lit "stg_Orders_2024") = true.
Proof. vm_compute. reflexivity. Qed.

(** ** The submit gate *)

Arguments RegExp.test : simpl never.

Lemma after_onLabelChange (v : jsstring) (st : Index.State) :
  after (Index.onLabelChange v) st
  = ( Index.mkState v (Index.description st)
        (negb (RegExp.test regexCheck v)) (Index.materializationNumRadio st),
      [HandleModelName v] ).
Proof.
  unfold after, Index.onLabelChange, Index.setLabel, Index.setIsDisabled,
    handleModelName, bind, modify, emit.
  cbn. reflexivity.
Qed.

(** C1. In the validated copy, after every label change the submit button
    is enabled exactly when the new label passes [regexCheck], and
    [regexCheck] passes exactly on the strings of 1 to 63 characters that
    are all ASCII letters, digits or underscores: such a label enables the
    button, and an empty label, a longer one, or one with any other
    character disables it. *)
Theorem C1_label_change_sets_submit_gate
  (t : jsstring -> jsstring) (props : Props) (st : Index.State)
  (v : jsstring) :
  let st' := fst (after (Index.handler props (LabelInput v)) st) in
  Index.label st' = v
  /\ negb (submit_disabled (Index.SaveDataModelModal t props st'))
     = RegExp.test regexCheck v
  /\ RegExp.test regexCheck v
     = (1 <=? length v) && (length v <=? 63) && forallb is_word_char v.
Proof.
  cbn [Index.handler]. rewrite after_onLabelChange.
  cbn. rewrite negb_involutive. repeat split.
  apply regexCheck_test_eq.
Qed.

(** C5 needs the cells a handler leaves alone. *)
Lemma after_handler_gate (props : Props) (e : event) (st : Index.State) :
  let st' := fst (after (Index.handler props e) st) in
  match e with
  | LabelInput v =>
      Index.isDisabled st' = negb (RegExp.test regexCheck v)
      /\ Index.label st' = v
  | _ =>
      Index.isDisabled st' = Index.isDisabled st
      /\ Index.label st' = Index.label st
  end.
Proof.
  destruct e as [v | v | k | |]; cbn [Index.handler].
  - rewrite after_onLabelChange. cbn. split; reflexivity.
  - cbn. split; reflexivity.
  - cbn. split; reflexivity.
  - destruct props as [vis [|]]; cbn; split; reflexivity.
  - cbn. split; reflexivity.
Qed.

(** ** The submit dispatcher *)

(** C2. For either value of [allowAsync], the click handler of the submit
    button calls [runQueryModel] exactly once, with that value, and then
    [onHide] exactly once; this holds in both copies (the second also
    prints to the console first), and no state cell changes. *)
Theorem C2_submit_click_runs_then_hides
  (props : Props) (sti : Index.State) (stp : Part000.State) :
  after (Index.handler props SubmitClick) sti
  = (sti, [RunQueryModel (allowAsync props); OnHide])
  /\ fst (after (Part000.handler props SubmitClick) stp) = stp
  /\ erase_logs (snd (after (Part000.handler props SubmitClick) stp))
     = [RunQueryModel (allowAsync props); OnHide].
Proof.
  destruct props as [vis [|]]; cbn; repeat split.
Qed.

(** The click as the dialog delivers it: never while the gate of the first
    copy is closed. *)
Lemma dispatch_SubmitClick
  (t : jsstring -> jsstring) (props : Props) (sti : Index.State) :
  Index.dispatch t props SubmitClick sti
  = if visible props && negb (Index.isDisabled sti)
    then Some (sti, [RunQueryModel (allowAsync props); OnHide])
    else None.
Proof.
  unfold Index.dispatch, offered. cbn [show submit_disabled Index.SaveDataModelModal].
  destruct (visible props && negb (Index.isDisabled sti)); [| reflexivity].
  destruct props as [vis [|]]; reflexivity.
Qed.

(** [onClickModel] called without a run function uses its default and
    calls nothing. *)
Lemma onClickModel_default (allowAsync : bool) (st : Index.State) :
  after (Index.onClickModel allowAsync None) st = (st, []).
Proof. destruct allowAsync; reflexivity. Qed.

(** ** The materialization selector *)

(** C3. Choosing a rendered radio with value [k] is delivered at once (the
    dialog being shown): the group then shows [k] and
    [handleMaterializationNum] has been called exactly once, with [k].
    The first copy renders the values 1, 2, 3 and the second 1, 2, 3, 4. *)
Theorem C3_radio_selection_is_live
  (t : jsstring -> jsstring) (props : Props)
  (sti : Index.State) (stp : Part000.State) (k : Z)
  (Hshown : visible props = true) :
  map fst (radios (Index.SaveDataModelModal t props sti)) = [1; 2; 3]%Z
  /\ map fst (radios (Part000.SaveDataModelModal t props stp))
     = [1; 2; 3; 4]%Z
  /\ (In k [1; 2; 3]%Z ->
      exists sti',
        Index.dispatch t props (RadioSelect k) sti
        = Some (sti', [HandleMaterializationNum k])
        /\ radio_value (Index.SaveDataModelModal t props sti') = k)
  /\ (In k [1; 2; 3; 4]%Z ->
      exists stp' trp,
        Part000.dispatch t props (RadioSelect k) stp = Some (stp', trp)
        /\ erase_logs trp = [HandleMaterializationNum k]
        /\ radio_value (Part000.SaveDataModelModal t props stp') = k).
Proof.
  repeat split.
  - intros Hk. unfold Index.dispatch, offered. cbn. rewrite Hshown.
    cbn in Hk. destruct Hk as [<- | [<- | [<- | []]]]; cbn;
      eexists; split; reflexivity.
  - intros Hk. unfold Part000.dispatch, offered. cbn. rewrite Hshown.
    cbn in Hk. destruct Hk as [<- | [<- | [<- | [<- | []]]]]; cbn;
      do 2 eexists; repeat split; reflexivity.
Qed.

Lemma C3_radio_selection_is_live_witness :
  exists sti',
    Index.dispatch t_id (mkProps true false) (RadioSelect 2)
      (fst (Index.mount t_id (Query.mk None None)))
    = Some (sti', [HandleMaterializationNum 2])
    /\ radio_value (Index.SaveDataModelModal t_id (mkProps true false) sti')
       = 2%Z.
Proof.
  apply (C3_radio_selection_is_live t_id (mkProps true false)
           (fst (Index.mount t_id (Query.mk None None)))
           (fst (Part000.mount t_id (Query.mk None None))) 2 eq_refl).
  simpl. auto.
Defined.

(** The handler itself forwards any number it is given. *)
Lemma radio_onChange_any (k : Z) (sti : Index.State) (stp : Part000.State) :
  after (Index.radio_onChange k) sti
  = ( Index.mkState (Index.label sti) (Index.description sti)
        (Index.isDisabled sti) k,
      [HandleMaterializationNum k] )
  /\ after (Part000.radio_onChange k) stp
     = ( Part000.mkState (Part000.label stp) (Part000.description stp) k,
         [ HandleMaterializationNum k ;
           ConsoleLog (LogStr (lit "materialize num radio")) ;
           ConsoleLog (LogNum k) ] ).
Proof. split; reflexivity. Qed.

(** ** The description field *)

(** C6. A description change sets the description cell to the new value
    and calls [handleDescription] with it, once; the label, the
    materialization choice and the submit gate keep their values. *)
Theorem C6_description_change_frame
  (props : Props) (sti : Index.State) (stp : Part000.State) (v : jsstring) :
  (let '(sti', tri) := after (Index.handler props (DescriptionInput v)) sti in
   Index.description sti' = v
   /\ Index.label sti' = Index.label sti
   /\ Index.materializationNumRadio sti' = Index.materializationNumRadio sti
   /\ Index.isDisabled sti' = Index.isDisabled sti
   /\ tri = [HandleDescription v])
  /\
  (let '(stp', trp) :=
     after (Part000.handler props (DescriptionInput v)) stp in
   Part000.description stp' = v
   /\ Part000.label stp' = Part000.label stp
   /\ Part000.materializationNumRadio stp'
      = Part000.materializationNumRadio stp
   /\ trp = [HandleDescription v]).
Proof. cbn. repeat split. Qed.

(** ** Outbound propagation *)

(** C7. In both copies a change of the label calls [handleModelName] with
    the new value and a change of the description calls
    [handleDescription] with the new value, whatever the value is; the
    shown dialog always delivers these events, whether or not the submit
    button is enabled. *)
Theorem C7_every_keystroke_is_forwarded
  (t : jsstring -> jsstring) (props : Props)
  (sti : Index.State) (stp : Part000.State) (v : jsstring) :
  snd (after (Index.handler props (LabelInput v)) sti) = [HandleModelName v]
  /\ snd (after (Part000.handler props (LabelInput v)) stp)
     = [HandleModelName v]
  /\ snd (after (Index.handler props (DescriptionInput v)) sti)
     = [HandleDescription v]
  /\ snd (after (Part000.handler props (DescriptionInput v)) stp)
     = [HandleDescription v]
  /\ offered (Index.SaveDataModelModal t props sti) (LabelInput v)
     = visible props
  /\ offered (Index.SaveDataModelModal t props sti) (DescriptionInput v)
     = visible props
  /\ offered (Part000.SaveDataModelModal t props stp) (LabelInput v)
     = visible props
  /\ offered (Part000.SaveDataModelModal t props stp) (DescriptionInput v)
     = visible props.
Proof.
  cbn [Index.handler]. rewrite after_onLabelChange.
  unfold offered. cbn. rewrite andb_true_r. repeat split.
Qed.

(** ** Initial values *)

(** The counterexample of C4: the name is present but empty.  The source
    takes the description; "the name if present" gives the empty name. *)
Lemma C4_counterexample_empty_name :
  let query := Query.mk (Some (lit "")) (Some (lit "daily orders")) in
  Index.label (fst (Index.mount t_id query)) = lit "daily orders"
  /\ spec_defaultLabel t_id query = lit ""
  /\ Index.label (fst (Index.mount t_id query))
     <> spec_defaultLabel t_id query.
Proof. cbn. repeat split. discriminate. Qed.

(** The same with an absent name and an empty description: the source
    shows the placeholder. *)
Lemma defaultLabel_empty_description :
  let query := Query.mk None (Some (lit "")) in
  Index.defaultLabel t_id query = lit "Undefined"
  /\ spec_defaultLabel t_id query = lit "".
Proof. cbn. split; reflexivity. Qed.

(** C4, amended. At the first render of either copy the label is the
    query's name if it is present and not empty, otherwise the query's
    description if it is present and not empty, otherwise the translation of
    "Undefined"; the description is the query's description, the empty
    string when there is none. *)
Theorem C4_initial_label_and_description
  (t : jsstring -> jsstring) (query : Query.t) :
  let nonempty_or (a : option jsstring) (b : jsstring) :=
    match a with
    | Some s => if Nat.eqb (length s) 0 then b else s
    | None => b
    end in
  let expected_label :=
    nonempty_or (Query.name query)
      (nonempty_or (Query.description query) (t (lit "Undefined"))) in
  let expected_description :=
    match Query.description query with Some d => d | None => lit "" end in
  Index.label (fst (Index.mount t query)) = expected_label
  /\ Index.description (fst (Index.mount t query)) = expected_description
  /\ Part000.label (fst (Part000.mount t query)) = expected_label
  /\ Part000.description (fst (Part000.mount t query)) = expected_description.
Proof.
  destruct query as [[[| c n] |] [[| c' d] |]]; cbn; repeat split.
Qed.

(** Where name and description are absent or not empty, the source and
    the words of the specification agree. *)
Lemma defaultLabel_agrees_off_empty
  (t : jsstring -> jsstring) (query : Query.t) :
  Query.name query <> Some [] ->
  Query.description query <> Some [] ->
  Index.defaultLabel t query = spec_defaultLabel t query.
Proof.
  destruct query as [[[| c n] |] [[| c' d] |]]; cbn; intros Hn Hd;
    try reflexivity; contradiction.
Qed.

(** The invariant behind C5, from any state: an enabled button was
    enabled at the start and the label is the one of the start, or a label
    change to a passing value happened and that value is the label. *)
Lemma gate_invariant (t : jsstring -> jsstring) (props : Props) :
  forall evs st0 st tr,
    run_events (Index.dispatch t props) evs st0 = Some (st, tr) ->
    Index.isDisabled st = false ->
    (Index.isDisabled st0 = false /\ Index.label st = Index.label st0)
    \/ exists v, In (LabelInput v) evs
                 /\ RegExp.test regexCheck v = true /\ Index.label st = v.
Proof.
  induction evs as [| e evs IH]; intros st0 st tr Hrun Hen.
  - cbn in Hrun. injection Hrun as <- _. left. split; [exact Hen | reflexivity].
  - cbn [run_events] in Hrun.
    destruct (Index.dispatch t props e st0) as [[st1 tr1] |] eqn:Hd;
      [| discriminate].
    destruct (run_events (Index.dispatch t props) evs st1)
      as [[st2 tr2] |] eqn:Hr; [| discriminate].
    injection Hrun as <- _.
    unfold Index.dispatch in Hd.
    destruct (offered _ e); [| discriminate].
    injection Hd as Hafter.
    pose proof (after_handler_gate props e st0) as Hgate.
    cbv zeta in Hgate. rewrite Hafter in Hgate. cbn [fst] in Hgate.
    destruct (IH st1 st2 tr2 Hr Hen) as [[Hen1 Hlab] | (v & Hin & Hv & Hl)].
    + destruct e as [v | v | k | |];
        destruct Hgate as [Hdis Hlabel];
        try (left; split; congruence).
      right. exists v. split; [now left |]. split; [| congruence].
      rewrite Hdis in Hen1. now apply negb_false_iff in Hen1.
    + right. exists v. split; [now right | split; assumption].
Qed.

(** C5. In the validated copy the submit button is disabled at the first
    render, also when the default label passes [regexCheck]; and whenever it
    is enabled after a sequence of events, one of these events was a label
    change to a value that passes [regexCheck], and that value is the
    current label. *)
Theorem C5_submit_enabled_only_by_matching_label
  (t : jsstring -> jsstring) (props : Props) (query : Query.t)
  (evs : list event) (st : Index.State) (tr : trace)
  (Hrun : Index.session t props query evs = Some (st, tr))
  (Henabled : Index.isDisabled st = false) :
  Index.isDisabled (fst (Index.mount t query)) = true
  /\ submit_disabled
       (Index.SaveDataModelModal t props (fst (Index.mount t query))) = true
  /\ exists v,
       In (LabelInput v) evs
       /\ RegExp.test regexCheck v = true
       /\ Index.label st = v.
Proof.
  split; [reflexivity | split; [reflexivity |]].
  unfold Index.session in Hrun. cbn [Index.mount] in Hrun.
  set (st0 := Index.mkState _ _ _ _) in Hrun.
  destruct (run_events (Index.dispatch t props) evs st0)
    as [[st' tr'] |] eqn:Hr; [| discriminate].
  injection Hrun as <- _.
  destruct (gate_invariant t props evs st0 st' tr' Hr Henabled)
    as [[Hcontra _] | Hex].
  - discriminate.
  - exact Hex.
Qed.

Lemma C5_submit_enabled_only_by_matching_label_witness :
  Index.isDisabled
    (fst (Index.mount t_id (Query.mk (Some (lit "orders")) None))) = true
  /\ submit_disabled
       (Index.SaveDataModelModal t_id (mkProps true true)
          (fst (Index.mount t_id (Query.mk (Some (lit "orders")) None))))
     = true
  /\ exists v,
       In (LabelInput v) [LabelInput (lit "orders_v2")]
       /\ RegExp.test regexCheck v = true
       /\ lit "orders_v2" = v.
Proof.
  apply (C5_submit_enabled_only_by_matching_label t_id (mkProps true true)
           (Query.mk (Some (lit "orders")) None)
           [LabelInput (lit "orders_v2")]
           (Index.mkState (lit "orders_v2") (lit "") false 1)
           [HandleModelName (lit "orders_v2")]).
  - vm_compute. reflexivity.
  - reflexivity.
Defined.

(** The default label may already be a valid model name: the button is
    disabled all the same until the label is edited. *)
Example mount_disabled_with_valid_label :
  let query := Query.mk (Some (lit "orders")) None in
  RegExp.test regexCheck (Index.label (fst (Index.mount t_id query))) = true
  /\ Index.dispatch t_id (mkProps true true) SubmitClick
       (fst (Index.mount t_id query)) = None.
Proof. split; vm_compute; reflexivity. Qed.

(** In every state reached from the first render, an enabled button goes
    with a label that passes the pattern. *)
Lemma enabled_implies_valid_label
  (t : jsstring -> jsstring) (props : Props) (query : Query.t)
  (evs : list event) (st : Index.State) (tr : trace) :
  Index.session t props query evs = Some (st, tr) ->
  Index.isDisabled st = false ->
  RegExp.test regexCheck (Index.label st) = true.
Proof.
  intros Hrun Hen.
  unfold Index.session in Hrun. cbn [Index.mount] in Hrun.
  destruct (run_events _ evs _) as [[st' tr'] |] eqn:Hr; [| discriminate].
  injection Hrun as <- _.
  destruct (gate_invariant t props evs _ st' tr' Hr Hen)
    as [[Hcontra _] | (v & _ & Hv & Hl)].
  - discriminate.
  - now rewrite Hl.
Qed.

(** ** The materialization handler is called by selections only *)

Lemma Index_handler_materialization_calls
  (props : Props) (e : event) (st : Index.State) :
  filter is_materialization_call (snd (after (Index.handler props e) st))
  = map HandleMaterializationNum (selections [e]).
Proof.
  destruct e as [v | v | k | |]; cbn [Index.handler].
  - rewrite after_onLabelChange. reflexivity.
  - reflexivity.
  - reflexivity.
  - destruct props as [vis [|]]; reflexivity.
  - reflexivity.
Qed.

Lemma Part000_handler_materialization_calls
  (props : Props) (e : event) (st : Part000.State) :
  filter is_materialization_call (snd (after (Part000.handler props e) st))
  = map HandleMaterializationNum (selections [e]).
Proof.
  destruct e as [v | v | k | |]; try reflexivity.
  destruct props as [vis [|]]; reflexivity.
Qed.

Lemma selections_cons (e : event) (evs : list event) :
  selections (e :: evs) = selections [e] ++ selections evs.
Proof. unfold selections. cbn. now rewrite app_nil_r. Qed.

(** Along any sequence of events the calls of [handleMaterializationNum]
    are the selections, one call each, in order. *)
Lemma Index_materialization_calls
  (t : jsstring -> jsstring) (props : Props) :
  forall evs st0 st tr,
    run_events (Index.dispatch t props) evs st0 = Some (st, tr) ->
    filter is_materialization_call tr
    = map HandleMaterializationNum (selections evs).
Proof.
  induction evs as [| e evs IH]; intros st0 st tr Hrun.
  - cbn in Hrun. injection Hrun as _ <-. reflexivity.
  - cbn [run_events] in Hrun. unfold Index.dispatch in Hrun.
    destruct (offered _ e); [| discriminate].
    pose proof (Index_handler_materialization_calls props e st0) as Hstep.
    destruct (after (Index.handler props e) st0) as [st1 tr1].
    destruct (run_events _ evs st1) as [[st2 tr2] |] eqn:Hr; [| discriminate].
    injection Hrun as _ <-.
    rewrite filter_app, selections_cons, map_app.
    cbn [snd] in Hstep. rewrite Hstep. f_equal. exact (IH st1 st2 tr2 Hr).
Qed.

Lemma Part000_materialization_calls
  (t : jsstring -> jsstring) (props : Props) :
  forall evs st0 st tr,
    run_events (Part000.dispatch t props) evs st0 = Some (st, tr) ->
    filter is_materialization_call tr
    = map HandleMaterializationNum (selections evs).
Proof.
  induction evs as [| e evs IH]; intros st0 st tr Hrun.
  - cbn in Hrun. injection Hrun as _ <-. reflexivity.
  - cbn [run_events] in Hrun. unfold Part000.dispatch in Hrun.
    destruct (offered _ e); [| discriminate].
    pose proof (Part000_handler_materialization_calls props e st0) as Hstep.
    destruct (after (Part000.handler props e) st0) as [st1 tr1].
    destruct (run_events _ evs st1) as [[st2 tr2] |] eqn:Hr; [| discriminate].
    injection Hrun as _ <-.
    rewrite filter_app, selections_cons, map_app.
    cbn [snd] in Hstep. rewrite Hstep. f_equal. exact (IH st1 st2 tr2 Hr).
Qed.

Lemma selections_none (evs : list event) :
  forallb (fun e => negb (is_RadioSelect e)) evs = true ->
  selections evs = [].
Proof.
  induction evs as [| e evs IH]; [reflexivity |].
  cbn [forallb]. rewrite andb_true_iff. intros [He Hevs].
  rewrite selections_cons, (IH Hevs), app_nil_r.
  destruct e; try reflexivity. discriminate.
Qed.

Lemma no_materialization_call (tr : trace) (k : Z) :
  filter is_materialization_call tr = [] ->
  ~ In (HandleMaterializationNum k) tr.
Proof.
  intros Hnil Hin.
  assert (Hf : In (HandleMaterializationNum k)
                 (filter is_materialization_call tr)).
  { apply filter_In. split; [exact Hin | reflexivity]. }
  rewrite Hnil in Hf. exact Hf.
Qed.

(** C10. The first render calls no prop, and the materialization cell
    starts at 1; in either copy, as long as no radio has been chosen,
    [handleMaterializationNum] has not been called, with any code. *)
Theorem C10_no_materialization_call_before_selection
  (t : jsstring -> jsstring) (props : Props) (query : Query.t)
  (evs : list event)
  (Hnone : forallb (fun e => negb (is_RadioSelect e)) evs = true) :
  snd (Index.mount t query) = []
  /\ snd (Part000.mount t query) = []
  /\ Index.materializationNumRadio (fst (Index.mount t query)) = 1%Z
  /\ Part000.materializationNumRadio (fst (Part000.mount t query)) = 1%Z
  /\ (forall st tr,
        Index.session t props query evs = Some (st, tr) ->
        forall k, ~ In (HandleMaterializationNum k) tr)
  /\ (forall st tr,
        Part000.session t props query evs = Some (st, tr) ->
        forall k, ~ In (HandleMaterializationNum k) tr).
Proof.
  repeat split.
  - intros st tr Hrun k. apply no_materialization_call.
    unfold Index.session in Hrun. cbn [Index.mount] in Hrun.
    destruct (run_events _ evs _) as [[st' tr'] |] eqn:Hr; [| discriminate].
    injection Hrun as _ <-. cbn [app].
    rewrite (Index_materialization_calls t props evs _ st' tr' Hr).
    now rewrite (selections_none evs Hnone).
  - intros st tr Hrun k. apply no_materialization_call.
    unfold Part000.session in Hrun. cbn [Part000.mount] in Hrun.
    destruct (run_events _ evs _) as [[st' tr'] |] eqn:Hr; [| discriminate].
    injection Hrun as _ <-. cbn [app].
    rewrite (Part000_materialization_calls t props evs _ st' tr' Hr).
    now rewrite (selections_none evs Hnone).
Qed.

Lemma C10_no_materialization_call_before_selection_witness :
  Index.session t_id (mkProps true true) (Query.mk None None)
    [ LabelInput (lit "orders") ; DescriptionInput (lit "all orders") ;
      SubmitClick ]
  = Some ( Index.mkState (lit "orders") (lit "all orders") false 1,
           [ HandleModelName (lit "orders") ;
             HandleDescription (lit "all orders") ;
             RunQueryModel true ; OnHide ] )
  /\ forall k,
       ~ In (HandleMaterializationNum k)
            [ HandleModelName (lit "orders") ;
              HandleDescription (lit "all orders") ;
              RunQueryModel true ; OnHide ].
Proof.
  assert (Hrun :
    Index.session t_id (mkProps true true) (Query.mk None None)
      [ LabelInput (lit "orders") ; DescriptionInput (lit "all orders") ;
        SubmitClick ]
    = Some ( Index.mkState (lit "orders") (lit "all orders") false 1,
             [ HandleModelName (lit "orders") ;
               HandleDescription (lit "all orders") ;
               RunQueryModel true ; OnHide ] ))
    by (vm_compute; reflexivity).
  split; [exact Hrun |].
  pose proof (C10_no_materialization_call_before_selection t_id
                (mkProps true true) (Query.mk None None)
                [ LabelInput (lit "orders") ;
                  DescriptionInput (lit "all orders") ; SubmitClick ]
                eq_refl) as (_ & _ & _ & _ & Hindex & _).
  exact (Hindex _ _ Hrun).
Defined.

(** ** The dataset update *)

(** [lit] on a string that starts with a character. *)
Lemma lit_String (a : ascii) (s : string) :
  lit (String a s) = N_of_ascii a :: lit s.
Proof. reflexivity. Qed.

(** Reading what the decimal printer of the library writes gives the
    number back, whatever was read before. *)
Lemma digits_value_acc (d : Decimal.uint) :
  forall acc : positive,
    digits_value (Z.pos acc) (lit (NilEmpty.string_of_uint d))
    = Some (Z.pos (Pos.of_uint_acc d acc)).
Proof.
  induction d; intros acc; cbn [NilEmpty.string_of_uint Pos.of_uint_acc];
    try reflexivity;
    rewrite lit_String; cbn [digits_value];
    match goal with
    | |- context [N_of_ascii ?a] =>
        let v := eval vm_compute in (N_of_ascii a) in
        change (N_of_ascii a) with v
    end;
    cbn [N.leb N.compare Pos.compare Pos.compare_cont andb];
    rewrite <- IHd; f_equal; first [lia | cbn; lia].
Qed.

Lemma digits_value_of_uint (d : Decimal.uint) :
  digits_value 0 (lit (NilEmpty.string_of_uint d))
  = Some (Z.of_N (Pos.of_uint d)).
Proof.
  induction d; cbn [NilEmpty.string_of_uint Pos.of_uint];
    try reflexivity;
    rewrite lit_String; cbn [digits_value];
    match goal with
    | |- context [N_of_ascii ?a] =>
        let v := eval vm_compute in (N_of_ascii a) in
        change (N_of_ascii a) with v
    end;
    cbn [N.leb N.compare Pos.compare Pos.compare_cont andb];
    first [ exact IHd | cbn [Z.of_N]; rewrite <- digits_value_acc; f_equal ].
Qed.

(** The numeral of a positive number is not empty and has no leading
    zero. *)
Lemma to_uint_head (p : positive) :
  Pos.to_uint p <> Decimal.Nil
  /\ forall d, Pos.to_uint p <> Decimal.D0 d.
Proof.
  split; [apply DecimalPos.Unsigned.to_uint_nonnil |].
  intros d Hd.
  pose proof (DecimalPos.Unsigned.to_of (Pos.to_uint p)) as Hnorm.
  rewrite DecimalPos.Unsigned.of_to in Hnorm. cbn [N.to_uint] in Hnorm.
  rewrite Hd in Hnorm. unfold Decimal.unorm in Hnorm.
  cbn [Decimal.nzhead] in Hnorm.
  destruct (Decimal.nzhead d) eqn:Hz;
    try (symmetry in Hnorm; rewrite <- Hz in Hnorm;
         exact (DecimalFacts.nzhead_nonzero _ _ Hnorm)).
  injection Hnorm as ->.
  exact (DecimalPos.Unsigned.to_uint_nonzero p Hd).
Qed.

(** A numeral that starts with a digit from 1 to 9. *)
Lemma leading_digit (u : Decimal.uint) :
  u <> Decimal.Nil -> (forall d, u <> Decimal.D0 d) ->
  exists c rest,
    lit (NilEmpty.string_of_uint u) = c :: rest
    /\ (49 <=? c)%N && (c <=? 57)%N = true.
Proof.
  intros Hnil Hzero.
  destruct u; try contradiction; try (exfalso; exact (Hzero _ eq_refl));
    cbn [NilEmpty.string_of_uint]; rewrite lit_String;
    eexists; eexists; (split; [reflexivity | vm_compute; reflexivity]).
Qed.

Lemma decimal_value_leading (c : N) (rest : jsstring) :
  (49 <=? c)%N && (c <=? 57)%N = true ->
  decimal_value (c :: rest) = digits_value 0 (c :: rest)
  /\ canonical_decimal (c :: rest) = true
  /\ decimal_value (45%N :: c :: rest)
     = option_map Z.opp (digits_value 0 (c :: rest))
  /\ canonical_decimal (45%N :: c :: rest) = true.
Proof.
  intros Hc. apply andb_true_iff in Hc. destruct Hc as [Hlo Hhi].
  apply N.leb_le in Hlo. apply N.leb_le in Hhi.
  assert (Hne : (c =? 45)%N = false) by (apply N.eqb_neq; lia).
  assert (H49 : (49 <=? c)%N = true) by (apply N.leb_le; lia).
  assert (H48 : (48 <=? c)%N = true) by (apply N.leb_le; lia).
  assert (H57 : (c <=? 57)%N = true) by (apply N.leb_le; lia).
  unfold decimal_value, canonical_decimal.
  rewrite Hne, H49, H48, H57. cbn [N.eqb Pos.eqb andb].
  repeat split. now destruct rest.
Qed.

(** The template literal prints the canonical numeral of the number. *)
Lemma Number_toString_decimal (n : Z) :
  decimal_value (Number_toString n) = Some n
  /\ canonical_decimal (Number_toString n) = true.
Proof.
  unfold Number_toString.
  destruct n as [| p | p]; [split; reflexivity | |];
    cbn [Z.to_int NilZero.string_of_int];
    destruct (to_uint_head p) as [Hnil Hzero];
    destruct (leading_digit (Pos.to_uint p) Hnil Hzero)
      as (c & rest & Hlit & Hc);
    destruct (decimal_value_leading c rest Hc) as (Hv & Hcan & Hvn & Hcann);
    assert (Hstr : NilZero.string_of_uint (Pos.to_uint p)
                   = NilEmpty.string_of_uint (Pos.to_uint p))
      by (destruct (Pos.to_uint p); [contradiction | reflexivity ..]);
    rewrite Hstr;
    pose proof (digits_value_of_uint (Pos.to_uint p)) as Hdig;
    rewrite DecimalPos.Unsigned.of_to, Hlit in Hdig.
  - rewrite Hlit. split; [| exact Hcan].
    etransitivity; [exact Hv | exact Hdig].
  - rewrite lit_String, Hlit. change (N_of_ascii "-") with 45%N.
    split; [| exact Hcann].
    etransitivity; [exact Hvn |].
    etransitivity; [exact (f_equal (option_map Z.opp) Hdig) | reflexivity].
Qed.

Lemma get_absent (key : jsstring) (o : JsonObject) :
  (forall v, ~ In (key, v) o) -> get key o = None.
Proof.
  induction o as [| [k v] o IH]; intros Hno; [reflexivity |].
  cbn [get]. destruct (list_eq_dec N.eq_dec k key) as [-> | _].
  - exfalso. apply (Hno v). now left.
  - apply IH. intros v' Hin. apply (Hno v'). now right.
Qed.

Lemma get_first (key : jsstring) (v : JsonValue) (pre post : JsonObject) :
  (forall v', ~ In (key, v') pre) ->
  get key (pre ++ (key, v) :: post) = Some v.
Proof.
  induction pre as [| [k w] pre IH]; intros Hno; cbn [app get].
  - destruct (list_eq_dec N.eq_dec key key) as [_ | Hne];
      [reflexivity | contradiction].
  - destruct (list_eq_dec N.eq_dec k key) as [-> | _].
    + exfalso. apply (Hno w). now left.
    + apply IH. intros v' Hin. apply (Hno v'). now right.
Qed.

(** C9. Against any server, [updateDataset] sends exactly one request, with
    the method PUT, to [api/v1/dataset/<id>?override_columns=<flag>], where
    [<id>] is the decimal numeral of the dataset id (it reads back as the
    id and has no leading zero) and [<flag>] is [true] or [false]; the
    request has the JSON content type, and its body is the serialisation of
    the object with exactly the fields [sql], [columns], [owners] and
    [database_id], the last being the database id.  If the client reports
    an error, the promise is rejected with that error; if it answers, the
    promise resolves to the value of the [result] property of the JSON of
    the answer, [undefined] when there is none.  No second request follows
    in either case. *)
Theorem C9_updateDataset_single_put
  (E : Type) (JSON_stringify : JsonValue -> jsstring)
  (server : nat -> RequestConfig -> E + JsonResponse)
  (dbId datasetId : Z) (sql : jsstring) (columns : list JsonObject)
  (owners : list Z) (overrideColumns : bool) :
  exists (digits : jsstring) (outcome : E + option JsonValue),
    decimal_value digits = Some datasetId
    /\ canonical_decimal digits = true
    /\ let rq :=
         {| endpoint :=
              lit "api/v1/dataset/" ++ digits
              ++ lit "?override_columns="
              ++ (if overrideColumns then lit "true" else lit "false");
            headers := [ (lit "Content-Type", lit "application/json") ];
            body :=
              JSON_stringify
                (JObj [ (lit "sql", JStr sql) ;
                        (lit "columns", JArr (map JObj columns)) ;
                        (lit "owners", JArr (map JNum owners)) ;
                        (lit "database_id", JNum dbId) ]) |} in
       exchange server []
         (Part000.updateDataset E JSON_stringify dbId datasetId sql columns
            owners overrideColumns)
       = ([ (PUT, rq) ], outcome)
       /\ match server 0 rq with
          | inl e => outcome = inl e
          | inr data =>
              (forall pre v post,
                 json data = pre ++ (lit "result", v) :: post ->
                 (forall v', ~ In (lit "result", v') pre) ->
                 outcome = inr (Some v))
              /\ ((forall v, ~ In (lit "result", v) (json data)) ->
                  outcome = inr None)
          end.
Proof.
  destruct (Number_toString_decimal datasetId) as [Hvalue Hcanonical].
  exists (Number_toString datasetId).
  unfold Part000.updateDataset, SupersetClient_put, SupersetClient_request.
  cbn [await exchange app length].
  unfold Boolean_toString, Part000.payload.
  set (rq := mkRequest _ _ _).
  destruct (server 0 rq) as [e | data] eqn:Hanswer.
  - exists (inl e). repeat split; assumption.
  - exists (inr (get (lit "result") (json data))).
    repeat split; try assumption.
    + intros pre v post Hjson Hfirst.
      now rewrite Hjson, (get_first _ _ _ _ Hfirst).
    + intros Hmissing. now rewrite (get_absent _ _ Hmissing).
Qed.

(** The request as it goes out, for dataset 42 of database 1. *)
Example updateDataset_request :
  fst (exchange (fun _ _ => @inl unit JsonResponse tt) []
         (Part000.updateDataset unit (fun _ => lit "{}") 1 42
            (lit "select 1") [] [7%Z] true))
  = [ ( PUT,
        {| endpoint := lit "api/v1/dataset/42?override_columns=true";
           headers := [ (lit "Content-Type", lit "application/json") ];
           body := lit "{}" |} ) ].
Proof. vm_compute. reflexivity. Qed.

(** A run against a server that answers with a [result]. *)
Example updateDataset_ok :
  let server (n : nat) (rq : RequestConfig) : unit + JsonResponse :=
    inr (mkResponse [ (lit "id", JNum 42) ;
                      (lit "result", JObj [ (lit "sql", JStr (lit "select 1")) ]) ]) in
  let '(sent, outcome) :=
    settle server []
      (Part000.updateDataset unit (fun _ => lit "{}") 1 42 (lit "select 1")
         [] [7%Z] true) in
  map endpoint sent = [ lit "api/v1/dataset/42?override_columns=true" ]
  /\ outcome = inr (Some (JObj [ (lit "sql", JStr (lit "select 1")) ])).
Proof. vm_compute. split; reflexivity. Qed.

(** A run against a server that fails: the error comes back, after one
    request. *)
Example updateDataset_error :
  let server (n : nat) (rq : RequestConfig) : nat + JsonResponse := inl 500 in
  let '(sent, outcome) :=
    settle server []
      (Part000.updateDataset nat (fun _ => lit "{}") 1 42 (lit "select 1")
         [] [7%Z] false) in
  map endpoint sent = [ lit "api/v1/dataset/42?override_columns=false" ]
  /\ outcome = inl 500.
Proof. vm_compute. split; reflexivity. Qed.

(** ** The two copies compared *)

(** One event, handled by both copies from matching cells. *)
Lemma handler_simulation (props : Props) (e : event) (sti : Index.State) :
  fst (after (Part000.handler props e) (forget sti))
  = forget (fst (after (Index.handler props e) sti))
  /\ erase_logs (snd (after (Part000.handler props e) (forget sti)))
     = snd (after (Index.handler props e) sti).
Proof.
  destruct e as [v | v | k | |]; cbn [Index.handler Part000.handler].
  - rewrite after_onLabelChange. split; reflexivity.
  - split; reflexivity.
  - split; reflexivity.
  - destruct props as [vis [|]]; split; reflexivity.
  - split; reflexivity.
Qed.

(** The console output of the second copy, event by event: one line on a
    click, two on a selection, none otherwise. *)
Lemma console_output (props : Props) (e : event) (stp : Part000.State) :
  filter is_log (snd (after (Part000.handler props e) stp))
  = match e with
    | SubmitClick => [ ConsoleLog (LogStr (lit "run query model click")) ]
    | RadioSelect k =>
        [ ConsoleLog (LogStr (lit "materialize num radio")) ;
          ConsoleLog (LogNum k) ]
    | _ => []
    end.
Proof.
  destruct e as [v | v | k | |]; try reflexivity.
  destruct props as [vis [|]]; reflexivity.
Qed.

Lemma Index_console_silent (props : Props) (e : event) (sti : Index.State) :
  filter is_log (snd (after (Index.handler props e) sti)) = [].
Proof.
  destruct e as [v | v | k | |]; cbn [Index.handler].
  - rewrite after_onLabelChange. reflexivity.
  - reflexivity.
  - reflexivity.
  - destruct props as [vis [|]]; reflexivity.
  - reflexivity.
Qed.

Lemma offered_simulation
  (t : jsstring -> jsstring) (props : Props) (sti : Index.State)
  (e : event) :
  offered (Index.SaveDataModelModal t props sti) e
  = offered (Part000.SaveDataModelModal t props (forget sti)) e
    && negb (is_fourth_radio e)
    && negb (is_SubmitClick e && Index.isDisabled sti).
Proof.
  unfold offered. cbn. destruct (visible props); cbn; [| reflexivity].
  destruct e as [v | v | k | |]; cbn; try reflexivity.
  rewrite !orb_false_r, andb_true_r.
  destruct (Z.eqb_spec k 4) as [-> | Hk]; cbn.
  - reflexivity.
  - now rewrite orb_false_r, andb_true_r.
Qed.

(** Every event the first copy delivers, the second delivers too. *)
Lemma dispatch_simulation
  (t : jsstring -> jsstring) (props : Props) (e : event)
  (sti sti' : Index.State) (tri : trace) :
  Index.dispatch t props e sti = Some (sti', tri) ->
  exists trp,
    Part000.dispatch t props e (forget sti) = Some (forget sti', trp)
    /\ erase_logs trp = tri.
Proof.
  unfold Index.dispatch, Part000.dispatch.
  rewrite offered_simulation.
  destruct (offered (Part000.SaveDataModelModal t props (forget sti)) e);
    [| discriminate].
  destruct (negb (is_fourth_radio e)); [| discriminate].
  destruct (negb (is_SubmitClick e && Index.isDisabled sti));
    [| discriminate].
  cbn [andb]. intros Hafter. injection Hafter as Hafter.
  destruct (handler_simulation props e sti) as [Hst Htr].
  rewrite Hafter in Hst, Htr. cbn [fst snd] in Hst, Htr.
  destruct (after (Part000.handler props e) (forget sti)) as [stp1 trp1].
  cbn [fst snd] in Hst, Htr. subst stp1.
  exists trp1. split; [reflexivity | exact Htr].
Qed.

(** Every run of the first copy is a run of the second, with the same
    cells and, the console apart, the same calls. *)
Lemma run_simulation (t : jsstring -> jsstring) (props : Props) :
  forall evs sti0 sti tri,
    run_events (Index.dispatch t props) evs sti0 = Some (sti, tri) ->
    exists trp,
      run_events (Part000.dispatch t props) evs (forget sti0)
      = Some (forget sti, trp)
      /\ erase_logs trp = tri.
Proof.
  induction evs as [| e evs IH]; intros sti0 sti tri Hrun.
  - cbn in Hrun. injection Hrun as <- <-. exists []. split; reflexivity.
  - cbn [run_events] in Hrun |- *.
    destruct (Index.dispatch t props e sti0) as [[sti1 tri1] |] eqn:Hd;
      [| discriminate].
    destruct (run_events (Index.dispatch t props) evs sti1)
      as [[sti2 tri2] |] eqn:Hr; [| discriminate].
    injection Hrun as <- <-.
    destruct (dispatch_simulation t props e sti0 sti1 tri1 Hd)
      as (trp1 & Hdp & He1).
    destruct (IH sti1 sti2 tri2 Hr) as (trp2 & Hrp & He2).
    rewrite Hdp, Hrp.
    exists (trp1 ++ trp2). split; [reflexivity |].
    unfold erase_logs in *. rewrite filter_app. congruence.
Qed.

Lemma session_simulation
  (t : jsstring -> jsstring) (props : Props) (query : Query.t)
  (evs : list event) (sti : Index.State) (tri : trace) :
  Index.session t props query evs = Some (sti, tri) ->
  exists trp,
    Part000.session t props query evs = Some (forget sti, trp)
    /\ erase_logs trp = tri.
Proof.
  unfold Index.session, Part000.session.
  cbn [Index.mount Part000.mount]. intros Hrun.
  destruct (run_events (Index.dispatch t props) evs _)
    as [[sti' tri'] |] eqn:Hr; [| discriminate].
  injection Hrun as <- <-.
  destruct (run_simulation t props evs _ sti' tri' Hr) as (trp & Hrp & He).
  assert (Hinit : fst (Part000.mount t query)
                  = forget (fst (Index.mount t query))) by reflexivity.
  cbn [Index.mount Part000.mount fst] in Hinit.
  rewrite Hinit, Hrp. exists trp. split; [reflexivity | exact He].
Qed.

(** The second copy goes where the first does not: a submit with a label
    that was never checked, and the fourth code. *)
Example second_copy_submits_unchecked :
  let props := mkProps true false in
  let query := Query.mk (Some (lit "my model")) None in
  Index.session t_id props query [SubmitClick] = None
  /\ Part000.session t_id props query [SubmitClick]
     = Some ( Part000.mkState (lit "my model") (lit "") 1,
              [ ConsoleLog (LogStr (lit "run query model click")) ;
                RunQueryModel false ; OnHide ] ).
Proof. split; vm_compute; reflexivity. Qed.

Example second_copy_fourth_radio :
  let props := mkProps true false in
  let query := Query.mk None None in
  Index.session t_id props query [RadioSelect 4] = None
  /\ option_map (fun r => erase_logs (snd r))
       (Part000.session t_id props query [RadioSelect 4])
     = Some [ HandleMaterializationNum 4 ].
Proof. split; vm_compute; reflexivity. Qed.

(** C8. The two copies start from the same cells and call nothing at the
    first render; they render the same dialog, except that the second has
    no submit gate and has a fourth radio; on every event their handlers
    leave the same cells and make the same calls of the props, in the same
    order, the second copy printing to the console in addition (one line on
    a click, two on a selection) where the first prints nothing; and the
    events the first copy delivers are those the second delivers, less the
    fourth radio and less the click while the gate is closed. *)
Theorem C8_copies_differ_by_gate_radio_and_logs
  (t : jsstring -> jsstring) (props : Props) (query : Query.t)
  (sti : Index.State) (e : event) :
  let vi := Index.SaveDataModelModal t props sti in
  let vp := Part000.SaveDataModelModal t props (forget sti) in
  let '(sti', tri) := after (Index.handler props e) sti in
  let '(stp', trp) := after (Part000.handler props e) (forget sti) in
  (forget (fst (Index.mount t query)) = fst (Part000.mount t query)
   /\ snd (Index.mount t query) = snd (Part000.mount t query))
  /\ (show vp = show vi /\ title vp = title vi
      /\ submit_text vp = submit_text vi /\ name_value vp = name_value vi
      /\ radio_value vp = radio_value vi
      /\ description_value vp = description_value vi)
  /\ (submit_disabled vi = Index.isDisabled sti
      /\ submit_disabled vp = false)
  /\ radios vp = radios vi ++ [ (4%Z, t (lit "Ephemereal")) ]
  /\ (stp' = forget sti' /\ erase_logs trp = tri)
  /\ (filter is_log tri = []
      /\ filter is_log trp
         = match e with
           | SubmitClick =>
               [ ConsoleLog (LogStr (lit "run query model click")) ]
           | RadioSelect k =>
               [ ConsoleLog (LogStr (lit "materialize num radio")) ;
                 ConsoleLog (LogNum k) ]
           | _ => []
           end)
  /\ offered vi e
     = offered vp e && negb (is_fourth_radio e)
       && negb (is_SubmitClick e && Index.isDisabled sti).
Proof.
  cbv zeta.
  pose proof (handler_simulation props e sti) as [Hst Htr].
  pose proof (offered_simulation t props sti e) as Hoffered.
  pose proof (Index_console_silent props e sti) as Hsilent.
  pose proof (console_output props e (forget sti)) as Hlogs.
  destruct (after (Index.handler props e) sti) as [sti' tri].
  destruct (after (Part000.handler props e) (forget sti)) as [stp' trp].
  cbn [fst snd] in Hst, Htr, Hsilent, Hlogs.
  repeat split; assumption || reflexivity.
Qed.

(** ** Whole sessions *)

Lemma Index_session_run
  (t : jsstring -> jsstring) (props : Props) (query : Query.t)
  (evs : list event) (st : Index.State) (tr : trace) :
  Index.session t props query evs = Some (st, tr) ->
  run_events (Index.dispatch t props) evs (fst (Index.mount t query))
  = Some (st, tr).
Proof.
  unfold Index.session. cbn [Index.mount fst].
  destruct (run_events _ evs _) as [[st' tr'] |]; [| discriminate].
  cbn [app]. exact (fun H => H).
Qed.

Lemma Part000_session_run
  (t : jsstring -> jsstring) (props : Props) (query : Query.t)
  (evs : list event) (st : Part000.State) (tr : trace) :
  Part000.session t props query evs = Some (st, tr) ->
  run_events (Part000.dispatch t props) evs (fst (Part000.mount t query))
  = Some (st, tr).
Proof.
  unfold Part000.session. cbn [Part000.mount fst].
  destruct (run_events _ evs _) as [[st' tr'] |]; [| discriminate].
  cbn [app]. exact (fun H => H).
Qed.

Lemma Index_dispatch_after
  (t : jsstring -> jsstring) (props : Props) (e : event)
  (st st' : Index.State) (tr : trace) :
  Index.dispatch t props e st = Some (st', tr) ->
  offered (Index.SaveDataModelModal t props st) e = true
  /\ after (Index.handler props e) st = (st', tr).
Proof.
  unfold Index.dispatch. destruct (offered _ e); [| discriminate].
  intros H. injection H as H. split; [reflexivity | exact H].
Qed.

Lemma Part000_dispatch_after
  (t : jsstring -> jsstring) (props : Props) (e : event)
  (st st' : Part000.State) (tr : trace) :
  Part000.dispatch t props e st = Some (st', tr) ->
  offered (Part000.SaveDataModelModal t props st) e = true
  /\ after (Part000.handler props e) st = (st', tr).
Proof.
  unfold Part000.dispatch. destruct (offered _ e); [| discriminate].
  intros H. injection H as H. split; [reflexivity | exact H].
Qed.

(** The gate and the label follow the last label typed, from any state
    in which they agree with [known]. *)
Lemma gate_tracks_label (t : jsstring -> jsstring) (props : Props)
  (d : jsstring) :
  forall evs st0 known st tr,
    run_events (Index.dispatch t props) evs st0 = Some (st, tr) ->
    Index.isDisabled st0 = gate known ->
    Index.label st0 = or_default known d ->
    Index.isDisabled st = gate (label_after known evs)
    /\ Index.label st = or_default (label_after known evs) d.
Proof.
  induction evs as [| e evs IH]; intros st0 known st tr Hrun Hg Hl.
  - cbn in Hrun. injection Hrun as <- _. split; assumption.
  - cbn [run_events] in Hrun.
    destruct (Index.dispatch t props e st0) as [[st1 tr1] |] eqn:Hd;
      [| discriminate].
    destruct (run_events (Index.dispatch t props) evs st1)
      as [[st2 tr2] |] eqn:Hr; [| discriminate].
    injection Hrun as <- _.
    apply Index_dispatch_after in Hd. destruct Hd as [_ Hafter].
    pose proof (after_handler_gate props e st0) as Hgate.
    cbv zeta in Hgate. rewrite Hafter in Hgate. cbn [fst] in Hgate.
    unfold label_after. cbn [fold_left]. fold (label_after known evs).
    destruct e as [v | v | k | |]; destruct Hgate as [Hdis Hlabel];
      try (apply (IH st1 known st2 tr2 Hr); congruence).
    apply (IH st1 (Some v) st2 tr2 Hr); assumption.
Qed.

(** X1. In the validated copy, after any session the submit button is
    disabled exactly when no label was typed or the last label typed fails
    [regexCheck], and the label shown is the last label typed, the default
    label if none was: a later invalid edit closes the gate again. *)
Theorem X1_gate_follows_last_label
  (t : jsstring -> jsstring) (props : Props) (query : Query.t)
  (evs : list event) (st : Index.State) (tr : trace)
  (Hrun : Index.session t props query evs = Some (st, tr)) :
  Index.isDisabled st = gate (label_after None evs)
  /\ Index.label st
     = or_default (label_after None evs) (Index.defaultLabel t query).
Proof.
  apply Index_session_run in Hrun.
  exact (gate_tracks_label t props (Index.defaultLabel t query) evs _ None
           st tr Hrun eq_refl eq_refl).
Qed.

Lemma X1_gate_follows_last_label_witness :
  Index.isDisabled
    (Index.mkState (lit "my model") (lit "") true 1)
  = gate (label_after None
            [ LabelInput (lit "my_model") ; LabelInput (lit "my model") ])
  /\ lit "my model"
     = or_default
         (label_after None
            [ LabelInput (lit "my_model") ; LabelInput (lit "my model") ])
         (Index.defaultLabel t_id (Query.mk None None)).
Proof.
  apply (X1_gate_follows_last_label t_id (mkProps true false)
           (Query.mk None None)
           [ LabelInput (lit "my_model") ; LabelInput (lit "my model") ]
           (Index.mkState (lit "my model") (lit "") true 1)
           [ HandleModelName (lit "my_model") ;
             HandleModelName (lit "my model") ]).
  vm_compute. reflexivity.
Defined.

Lemma received_app {A : Type} (pick : call -> option A) (known : option A)
  (a b : trace) :
  received pick known (a ++ b) = received pick (received pick known a) b.
Proof. unfold received. apply fold_left_app. Qed.

Lemma runs_validated_app (a b : trace) :
  forall known,
    runs_validated known (a ++ b)
    = runs_validated known a
      && runs_validated (received model_name_of known a) b.
Proof.
  induction a as [| c a IH]; intros known; [reflexivity |].
  destruct c; cbn [app runs_validated]; rewrite IH;
    try reflexivity.
  now rewrite andb_assoc.
Qed.

(** One delivered event keeps the gate in step with the model name the
    caller has, and runs only with the gate open. *)
Lemma Index_step_validated
  (t : jsstring -> jsstring) (props : Props) (e : event)
  (st0 st1 : Index.State) (tr1 : trace) (known : option jsstring) :
  Index.dispatch t props e st0 = Some (st1, tr1) ->
  Index.isDisabled st0 = gate known ->
  Index.isDisabled st1 = gate (received model_name_of known tr1)
  /\ runs_validated known tr1 = true.
Proof.
  intros Hd Hg. apply Index_dispatch_after in Hd.
  destruct Hd as [Hoff Hafter].
  destruct e as [v | v | k | |]; cbn [Index.handler] in Hafter.
  - rewrite after_onLabelChange in Hafter. injection Hafter as <- <-.
    split; reflexivity.
  - injection Hafter as <- <-. split; [exact Hg | reflexivity].
  - injection Hafter as <- <-. split; [exact Hg | reflexivity].
  - unfold offered in Hoff. cbn in Hoff.
    apply andb_true_iff in Hoff. destruct Hoff as [_ Hen].
    apply negb_true_iff in Hen.
    destruct props as [vis [|]]; injection Hafter as <- <-;
      cbn; rewrite <- Hg, Hen; split; reflexivity.
  - injection Hafter as <- <-. split; [exact Hg | reflexivity].
Qed.

Lemma Index_run_validated (t : jsstring -> jsstring) (props : Props) :
  forall evs st0 known st tr,
    run_events (Index.dispatch t props) evs st0 = Some (st, tr) ->
    Index.isDisabled st0 = gate known ->
    runs_validated known tr = true.
Proof.
  induction evs as [| e evs IH]; intros st0 known st tr Hrun Hg.
  - cbn in Hrun. injection Hrun as _ <-. reflexivity.
  - cbn [run_events] in Hrun.
    destruct (Index.dispatch t props e st0) as [[st1 tr1] |] eqn:Hd;
      [| discriminate].
    destruct (run_events (Index.dispatch t props) evs st1)
      as [[st2 tr2] |] eqn:Hr; [| discriminate].
    injection Hrun as _ <-.
    destruct (Index_step_validated t props e st0 st1 tr1 known Hd Hg)
      as [Hg1 Hv1].
    rewrite runs_validated_app, Hv1.
    exact (IH st1 _ st2 tr2 Hr Hg1).
Qed.

(** X3. In the validated copy, whenever [runQueryModel] is called in a
    session, [handleModelName] was called before it, and the last such call
    carried a name that passes [regexCheck]: the caller is never asked to
    run with a model name it was not given, or with an invalid one. *)
Theorem X3_run_only_after_valid_name
  (t : jsstring -> jsstring) (props : Props) (query : Query.t)
  (evs : list event) (st : Index.State) (tr tr1 tr2 : trace) (c : bool)
  (Hrun : Index.session t props query evs = Some (st, tr))
  (Hsplit : tr = tr1 ++ RunQueryModel c :: tr2) :
  exists v,
    received model_name_of None tr1 = Some v
    /\ RegExp.test regexCheck v = true.
Proof.
  apply Index_session_run in Hrun.
  pose proof (Index_run_validated t props evs _ None st tr Hrun eq_refl)
    as Hv.
  rewrite Hsplit, runs_validated_app in Hv.
  apply andb_true_iff in Hv. destruct Hv as [_ Hv].
  cbn [runs_validated] in Hv. apply andb_true_iff in Hv.
  destruct Hv as [Hopen _]. apply negb_true_iff in Hopen.
  destruct (received model_name_of None tr1) as [v |]; [| discriminate].
  exists v. split; [reflexivity |].
  cbn [gate] in Hopen. now apply negb_false_iff in Hopen.
Qed.

Lemma X3_run_only_after_valid_name_witness :
  exists v,
    received model_name_of None
      [ HandleModelName (lit "my model") ; HandleModelName (lit "my_model") ]
    = Some v
    /\ RegExp.test regexCheck v = true.
Proof.
  apply (X3_run_only_after_valid_name t_id (mkProps true true)
           (Query.mk None None)
           [ LabelInput (lit "my model") ; LabelInput (lit "my_model") ;
             SubmitClick ]
           (Index.mkState (lit "my_model") (lit "") false 1)
           [ HandleModelName (lit "my model") ;
             HandleModelName (lit "my_model") ;
             RunQueryModel true ; OnHide ]
           [ HandleModelName (lit "my model") ;
             HandleModelName (lit "my_model") ]
           [ OnHide ] true).
  - vm_compute. reflexivity.
  - reflexivity.
Defined.

(** The other copy gives no such guarantee: it runs with a name the caller
    never received. *)
Example second_copy_runs_unvalidated :
  option_map (fun r => runs_validated None (snd r))
    (Part000.session t_id (mkProps true true)
       (Query.mk (Some (lit "my model")) None) [SubmitClick])
  = Some false.
Proof. vm_compute. reflexivity. Qed.

(** ** The cells and the calls agree *)

Lemma or_default_received {A : Type} (pick : call -> option A) (tr : trace) :
  forall (known : option A) (d : A),
    or_default (received pick known tr) d
    = or_default (received pick None tr) (or_default known d).
Proof.
  unfold received.
  induction tr as [| c tr IH]; intros known d; [reflexivity |].
  cbn [fold_left]. destruct (pick c) as [a |].
  - rewrite (IH (Some a) d), (IH (Some a) (or_default known d)). reflexivity.
  - apply IH.
Qed.

(** A cell that every handler leaves at the last value it passed on, or
    untouched, ends a run at the last value passed on in the run. *)
Lemma run_events_mirror {S A : Type}
  (dispatch : event -> S -> option (S * trace))
  (cell : S -> A) (pick : call -> option A)
  (Hstep : forall e st st' tr,
      dispatch e st = Some (st', tr) ->
      cell st' = or_default (received pick None tr) (cell st)) :
  forall evs st0 st tr,
    run_events dispatch evs st0 = Some (st, tr) ->
    cell st = or_default (received pick None tr) (cell st0).
Proof.
  induction evs as [| e evs IH]; intros st0 st tr Hrun.
  - cbn in Hrun. injection Hrun as <- <-. reflexivity.
  - cbn [run_events] in Hrun.
    destruct (dispatch e st0) as [[st1 tr1] |] eqn:Hd; [| discriminate].
    destruct (run_events dispatch evs st1) as [[st2 tr2] |] eqn:Hr;
      [| discriminate].
    injection Hrun as <- <-.
    rewrite received_app, or_default_received.
    rewrite <- (Hstep e st0 st1 tr1 Hd).
    exact (IH st1 st2 tr2 Hr).
Qed.

Lemma Index_step_mirror
  (t : jsstring -> jsstring) (props : Props) (e : event)
  (st st' : Index.State) (tr : trace) :
  Index.dispatch t props e st = Some (st', tr) ->
  Index.label st'
  = or_default (received model_name_of None tr) (Index.label st)
  /\ Index.description st'
     = or_default (received description_of None tr) (Index.description st)
  /\ Index.materializationNumRadio st'
     = or_default (received materialization_of None tr)
         (Index.materializationNumRadio st).
Proof.
  intros Hd. apply Index_dispatch_after in Hd. destruct Hd as [_ Hafter].
  destruct e as [v | v | k | |]; cbn [Index.handler] in Hafter.
  - rewrite after_onLabelChange in Hafter. injection Hafter as <- <-.
    repeat split.
  - injection Hafter as <- <-. repeat split.
  - injection Hafter as <- <-. repeat split.
  - destruct props as [vis [|]]; injection Hafter as <- <-; repeat split.
  - injection Hafter as <- <-. repeat split.
Qed.

Lemma Part000_step_mirror
  (t : jsstring -> jsstring) (props : Props) (e : event)
  (st st' : Part000.State) (tr : trace) :
  Part000.dispatch t props e st = Some (st', tr) ->
  Part000.label st'
  = or_default (received model_name_of None tr) (Part000.label st)
  /\ Part000.description st'
     = or_default (received description_of None tr) (Part000.description st)
  /\ Part000.materializationNumRadio st'
     = or_default (received materialization_of None tr)
         (Part000.materializationNumRadio st).
Proof.
  intros Hd. apply Part000_dispatch_after in Hd. destruct Hd as [_ Hafter].
  destruct e as [v | v | k | |]; cbn [Part000.handler] in Hafter.
  - injection Hafter as <- <-. repeat split.
  - injection Hafter as <- <-. repeat split.
  - injection Hafter as <- <-. repeat split.
  - destruct props as [vis [|]]; injection Hafter as <- <-; repeat split.
  - injection Hafter as <- <-. repeat split.
Qed.

(** X2. In both copies, after any session each field shows the last value
    that was passed to its handler prop during the session
    ([handleModelName], [handleDescription], [handleMaterializationNum]),
    and its initial value if the prop was never called: the dialog and its
    caller never disagree on a value the caller was given. *)
Theorem X2_cells_mirror_calls
  (t : jsstring -> jsstring) (props : Props) (query : Query.t)
  (evs : list event) :
  (forall sti tri,
     Index.session t props query evs = Some (sti, tri) ->
     Index.label sti
     = or_default (received model_name_of None tri)
         (Index.defaultLabel t query)
     /\ Index.description sti
        = or_default (received description_of None tri)
            (or_else (Query.description query) (lit ""))
     /\ Index.materializationNumRadio sti
        = or_default (received materialization_of None tri) 1%Z)
  /\
  (forall stp trp,
     Part000.session t props query evs = Some (stp, trp) ->
     Part000.label stp
     = or_default (received model_name_of None trp)
         (Part000.defaultLabel t query)
     /\ Part000.description stp
        = or_default (received description_of None trp)
            (or_else (Query.description query) (lit ""))
     /\ Part000.materializationNumRadio stp
        = or_default (received materialization_of None trp) 1%Z).
Proof.
  split.
  - intros sti tri Hrun. apply Index_session_run in Hrun.
    repeat split.
    + apply (run_events_mirror (Index.dispatch t props) Index.label
               model_name_of
               (fun e st st' tr H =>
                  proj1 (Index_step_mirror t props e st st' tr H))
               evs _ sti tri Hrun).
    + apply (run_events_mirror (Index.dispatch t props) Index.description
               description_of
               (fun e st st' tr H =>
                  proj1 (proj2 (Index_step_mirror t props e st st' tr H)))
               evs _ sti tri Hrun).
    + apply (run_events_mirror (Index.dispatch t props)
               Index.materializationNumRadio materialization_of
               (fun e st st' tr H =>
                  proj2 (proj2 (Index_step_mirror t props e st st' tr H)))
               evs _ sti tri Hrun).
  - intros stp trp Hrun. apply Part000_session_run in Hrun.
    repeat split.
    + apply (run_events_mirror (Part000.dispatch t props) Part000.label
               model_name_of
               (fun e st st' tr H =>
                  proj1 (Part000_step_mirror t props e st st' tr H))
               evs _ stp trp Hrun).
    + apply (run_events_mirror (Part000.dispatch t props)
               Part000.description description_of
               (fun e st st' tr H =>
                  proj1 (proj2 (Part000_step_mirror t props e st st' tr H)))
               evs _ stp trp Hrun).
    + apply (run_events_mirror (Part000.dispatch t props)
               Part000.materializationNumRadio materialization_of
               (fun e st st' tr H =>
                  proj2 (proj2 (Part000_step_mirror t props e st st' tr H)))
               evs _ stp trp Hrun).
Qed.

Lemma X2_cells_mirror_calls_witness :
  lit "orders"
  = or_default
      (received model_name_of None
         [ HandleModelName (lit "orders") ; HandleMaterializationNum 3 ])
      (Index.defaultLabel t_id (Query.mk None (Some (lit "all orders"))))
  /\ lit "all orders"
     = or_default
         (received description_of None
            [ HandleModelName (lit "orders") ; HandleMaterializationNum 3 ])
         (or_else (Some (lit "all orders")) (lit ""))
  /\ 3%Z
     = or_default
         (received materialization_of None
            [ HandleModelName (lit "orders") ; HandleMaterializationNum 3 ])
         1%Z.
Proof.
  apply (proj1 (X2_cells_mirror_calls t_id (mkProps true false)
                  (Query.mk None (Some (lit "all orders")))
                  [ LabelInput (lit "orders") ; RadioSelect 3 ])
           (Index.mkState (lit "orders") (lit "all orders") false 3)).
  vm_compute. reflexivity.
Defined.

(** ** What a session can and cannot call *)

Lemma run_events_filter {S : Type}
  (dispatch : event -> S -> option (S * trace))
  (p : call -> bool) (f : event -> list call)
  (Hstep : forall e st st' tr,
      dispatch e st = Some (st', tr) -> filter p tr = f e) :
  forall evs st0 st tr,
    run_events dispatch evs st0 = Some (st, tr) ->
    filter p tr = flat_map f evs.
Proof.
  induction evs as [| e evs IH]; intros st0 st tr Hrun.
  - cbn in Hrun. injection Hrun as _ <-. reflexivity.
  - cbn [run_events] in Hrun.
    destruct (dispatch e st0) as [[st1 tr1] |] eqn:Hd; [| discriminate].
    destruct (run_events dispatch evs st1) as [[st2 tr2] |] eqn:Hr;
      [| discriminate].
    injection Hrun as _ <-.
    rewrite filter_app. cbn [flat_map].
    now rewrite (Hstep e st0 st1 tr1 Hd), (IH st1 st2 tr2 Hr).
Qed.

Lemma run_events_invariant {S : Type}
  (dispatch : event -> S -> option (S * trace))
  (I : S -> Prop) (P : call -> Prop)
  (Hstep : forall e st st' tr,
      dispatch e st = Some (st', tr) -> I st -> I st' /\ Forall P tr) :
  forall evs st0 st tr,
    run_events dispatch evs st0 = Some (st, tr) ->
    I st0 -> I st /\ Forall P tr.
Proof.
  induction evs as [| e evs IH]; intros st0 st tr Hrun H0.
  - cbn in Hrun. injection Hrun as <- <-. split; [exact H0 | constructor].
  - cbn [run_events] in Hrun.
    destruct (dispatch e st0) as [[st1 tr1] |] eqn:Hd; [| discriminate].
    destruct (run_events dispatch evs st1) as [[st2 tr2] |] eqn:Hr;
      [| discriminate].
    injection Hrun as <- <-.
    destruct (Hstep e st0 st1 tr1 Hd H0) as [H1 Htr1].
    destruct (IH st1 st2 tr2 Hr H1) as [H2 Htr2].
    split; [exact H2 |]. apply Forall_app. split; assumption.
Qed.

Lemma existsb_Zeqb_In (k : Z) (l : list Z) :
  existsb (Z.eqb k) l = true -> In k l.
Proof.
  intros H. apply existsb_exists in H. destruct H as (x & Hin & Heq).
  apply Z.eqb_eq in Heq. now subst x.
Qed.

Ltac codes_in_range Hcell :=
  unfold Number in *;
  split;
  [ exact Hcell
  | repeat (apply Forall_cons;
            [ let k' := fresh "k" in
              let Hc := fresh "Hc" in
              intros k' Hc;
              first [ discriminate Hc | injection Hc as <-; exact Hcell ]
            | ]);
    apply Forall_nil ].

Lemma Index_step_codes
  (t : jsstring -> jsstring) (props : Props) (e : event)
  (st st' : Index.State) (tr : trace) :
  Index.dispatch t props e st = Some (st', tr) ->
  In (Index.materializationNumRadio st) [1; 2; 3]%Z ->
  In (Index.materializationNumRadio st') [1; 2; 3]%Z
  /\ Forall (fun c => forall k, c = HandleMaterializationNum k ->
                                In k [1; 2; 3]%Z) tr.
Proof.
  intros Hd Hin. apply Index_dispatch_after in Hd.
  destruct Hd as [Hoff Hafter].
  destruct e as [v | v | k | |]; cbn [Index.handler] in Hafter.
  - rewrite after_onLabelChange in Hafter. injection Hafter as <- <-.
    codes_in_range Hin.
  - injection Hafter as <- <-. codes_in_range Hin.
  - unfold offered in Hoff. cbn [show radios Index.SaveDataModelModal map fst]
      in Hoff.
    apply andb_true_iff in Hoff. destruct Hoff as [_ Hk].
    apply existsb_Zeqb_In in Hk.
    injection Hafter as <- <-. codes_in_range Hk.
  - destruct props as [vis [|]]; injection Hafter as <- <-;
      codes_in_range Hin.
  - injection Hafter as <- <-. codes_in_range Hin.
Qed.

Lemma Part000_step_codes
  (t : jsstring -> jsstring) (props : Props) (e : event)
  (st st' : Part000.State) (tr : trace) :
  Part000.dispatch t props e st = Some (st', tr) ->
  In (Part000.materializationNumRadio st) [1; 2; 3; 4]%Z ->
  In (Part000.materializationNumRadio st') [1; 2; 3; 4]%Z
  /\ Forall (fun c => forall k, c = HandleMaterializationNum k ->
                                In k [1; 2; 3; 4]%Z) tr.
Proof.
  intros Hd Hin. apply Part000_dispatch_after in Hd.
  destruct Hd as [Hoff Hafter].
  destruct e as [v | v | k | |]; cbn [Part000.handler] in Hafter.
  - injection Hafter as <- <-. codes_in_range Hin.
  - injection Hafter as <- <-. codes_in_range Hin.
  - unfold offered in Hoff.
    cbn [show radios Part000.SaveDataModelModal map fst] in Hoff.
    apply andb_true_iff in Hoff. destruct Hoff as [_ Hk].
    apply existsb_Zeqb_In in Hk.
    injection Hafter as <- <-. codes_in_range Hk.
  - destruct props as [vis [|]]; injection Hafter as <- <-;
      codes_in_range Hin.
  - injection Hafter as <- <-. codes_in_range Hin.
Qed.

(** X4. Every code passed to [handleMaterializationNum] in a session, and
    the code selected at its end, is one of the values the copy renders:
    1, 2 or 3 in the first copy, and also 4 in the second. *)
Theorem X4_forwarded_codes_are_rendered
  (t : jsstring -> jsstring) (props : Props) (query : Query.t)
  (evs : list event) :
  (forall sti tri,
     Index.session t props query evs = Some (sti, tri) ->
     In (Index.materializationNumRadio sti) [1; 2; 3]%Z
     /\ forall k, In (HandleMaterializationNum k) tri -> In k [1; 2; 3]%Z)
  /\
  (forall stp trp,
     Part000.session t props query evs = Some (stp, trp) ->
     In (Part000.materializationNumRadio stp) [1; 2; 3; 4]%Z
     /\ forall k, In (HandleMaterializationNum k) trp
                  -> In k [1; 2; 3; 4]%Z).
Proof.
  split.
  - intros sti tri Hrun. apply Index_session_run in Hrun.
    destruct (run_events_invariant (Index.dispatch t props) _ _
                (Index_step_codes t props) evs _ sti tri Hrun)
      as [Hcell Hcalls].
    + cbn. now left.
    + split; [exact Hcell |]. intros k Hin.
      rewrite Forall_forall in Hcalls. exact (Hcalls _ Hin k eq_refl).
  - intros stp trp Hrun. apply Part000_session_run in Hrun.
    destruct (run_events_invariant (Part000.dispatch t props) _ _
                (Part000_step_codes t props) evs _ stp trp Hrun)
      as [Hcell Hcalls].
    + cbn. now left.
    + split; [exact Hcell |]. intros k Hin.
      rewrite Forall_forall in Hcalls. exact (Hcalls _ Hin k eq_refl).
Qed.

Lemma X4_forwarded_codes_are_rendered_witness :
  In 4%Z [1; 2; 3; 4]%Z
  /\ forall k,
       In (HandleMaterializationNum k)
          [ HandleMaterializationNum 2 ;
            ConsoleLog (LogStr (lit "materialize num radio")) ;
            ConsoleLog (LogNum 2) ;
            HandleMaterializationNum 4 ;
            ConsoleLog (LogStr (lit "materialize num radio")) ;
            ConsoleLog (LogNum 4) ]
       -> In k [1; 2; 3; 4]%Z.
Proof.
  apply (proj2 (X4_forwarded_codes_are_rendered t_id (mkProps true false)
                  (Query.mk None None) [ RadioSelect 2 ; RadioSelect 4 ])
           (Part000.mkState (lit "Undefined") (lit "") 4)).
  vm_compute. reflexivity.
Defined.

Lemma flat_map_if {A B : Type} (p : A -> bool) (g : A -> B) (l : list A) :
  flat_map (fun a => if p a then [g a] else []) l = map g (filter p l).
Proof.
  induction l as [| a l IH]; [reflexivity |].
  cbn [flat_map filter]. destruct (p a); cbn; now rewrite IH.
Qed.

Lemma Index_step_run_calls
  (t : jsstring -> jsstring) (props : Props) (e : event)
  (st st' : Index.State) (tr : trace) :
  Index.dispatch t props e st = Some (st', tr) ->
  filter is_run_call tr
  = (if is_SubmitClick e then [RunQueryModel (allowAsync props)] else [])
  /\ filter is_hide_call tr = (if closes e then [OnHide] else []).
Proof.
  intros Hd. apply Index_dispatch_after in Hd. destruct Hd as [_ Hafter].
  destruct e as [v | v | k | |]; cbn [Index.handler] in Hafter.
  - rewrite after_onLabelChange in Hafter. injection Hafter as _ <-.
    split; reflexivity.
  - injection Hafter as _ <-. split; reflexivity.
  - injection Hafter as _ <-. split; reflexivity.
  - destruct props as [vis [|]]; injection Hafter as _ <-; split; reflexivity.
  - injection Hafter as _ <-. split; reflexivity.
Qed.

Lemma Part000_step_run_calls
  (t : jsstring -> jsstring) (props : Props) (e : event)
  (st st' : Part000.State) (tr : trace) :
  Part000.dispatch t props e st = Some (st', tr) ->
  filter is_run_call tr
  = (if is_SubmitClick e then [RunQueryModel (allowAsync props)] else [])
  /\ filter is_hide_call tr = (if closes e then [OnHide] else []).
Proof.
  intros Hd. apply Part000_dispatch_after in Hd. destruct Hd as [_ Hafter].
  destruct e as [v | v | k | |]; cbn [Part000.handler] in Hafter.
  - injection Hafter as _ <-. split; reflexivity.
  - injection Hafter as _ <-. split; reflexivity.
  - injection Hafter as _ <-. split; reflexivity.
  - destruct props as [vis [|]]; injection Hafter as _ <-; split; reflexivity.
  - injection Hafter as _ <-. split; reflexivity.
Qed.

(** X5. In a session of either copy, [runQueryModel] is called once for
    each click on the submit button that was delivered, every time with the
    [allowAsync] prop as argument, and [onHide] once for each such click
    and each request of the modal to close; neither is called otherwise. *)
Theorem X5_run_and_hide_accounting
  (t : jsstring -> jsstring) (props : Props) (query : Query.t)
  (evs : list event) :
  (forall sti tri,
     Index.session t props query evs = Some (sti, tri) ->
     filter is_run_call tri
     = map (fun _ => RunQueryModel (allowAsync props))
           (filter is_SubmitClick evs)
     /\ filter is_hide_call tri = map (fun _ => OnHide) (filter closes evs))
  /\
  (forall stp trp,
     Part000.session t props query evs = Some (stp, trp) ->
     filter is_run_call trp
     = map (fun _ => RunQueryModel (allowAsync props))
           (filter is_SubmitClick evs)
     /\ filter is_hide_call trp = map (fun _ => OnHide) (filter closes evs)).
Proof.
  split.
  - intros sti tri Hrun. apply Index_session_run in Hrun.
    rewrite <- !flat_map_if. split.
    + apply (run_events_filter (Index.dispatch t props) is_run_call _
               (fun e st st' tr H =>
                  proj1 (Index_step_run_calls t props e st st' tr H))
               evs _ sti tri Hrun).
    + apply (run_events_filter (Index.dispatch t props) is_hide_call _
               (fun e st st' tr H =>
                  proj2 (Index_step_run_calls t props e st st' tr H))
               evs _ sti tri Hrun).
  - intros stp trp Hrun. apply Part000_session_run in Hrun.
    rewrite <- !flat_map_if. split.
    + apply (run_events_filter (Part000.dispatch t props) is_run_call _
               (fun e st st' tr H =>
                  proj1 (Part000_step_run_calls t props e st st' tr H))
               evs _ stp trp Hrun).
    + apply (run_events_filter (Part000.dispatch t props) is_hide_call _
               (fun e st st' tr H =>
                  proj2 (Part000_step_run_calls t props e st st' tr H))
               evs _ stp trp Hrun).
Qed.

Lemma X5_run_and_hide_accounting_witness :
  filter is_run_call
    [ HandleModelName (lit "orders") ; RunQueryModel true ; OnHide ; OnHide ]
  = map (fun _ => RunQueryModel true)
        (filter is_SubmitClick
           [ LabelInput (lit "orders") ; SubmitClick ; ModalHide ])
  /\ filter is_hide_call
       [ HandleModelName (lit "orders") ; RunQueryModel true ; OnHide ;
         OnHide ]
     = map (fun _ => OnHide)
           (filter closes
              [ LabelInput (lit "orders") ; SubmitClick ; ModalHide ]).
Proof.
  apply (proj1 (X5_run_and_hide_accounting t_id (mkProps true true)
                  (Query.mk None None)
                  [ LabelInput (lit "orders") ; SubmitClick ; ModalHide ])
           (Index.mkState (lit "orders") (lit "") false 1)).
  vm_compute. reflexivity.
Defined.

(** ** Sessions of the two copies *)

Lemma Index_run_admitted (t : jsstring -> jsstring) (props : Props) :
  forall evs sti0 known sti tri,
    run_events (Index.dispatch t props) evs sti0 = Some (sti, tri) ->
    Index.isDisabled sti0 = gate known ->
    admits known evs = true.
Proof.
  induction evs as [| e evs IH]; intros sti0 known sti tri Hrun Hg;
    [reflexivity |].
  cbn [run_events] in Hrun.
  destruct (Index.dispatch t props e sti0) as [[sti1 tri1] |] eqn:Hd;
    [| discriminate].
  destruct (run_events (Index.dispatch t props) evs sti1)
    as [[sti2 tri2] |] eqn:Hr; [| discriminate].
  apply Index_dispatch_after in Hd. destruct Hd as [Hoff Hafter].
  rewrite offered_simulation in Hoff.
  apply andb_true_iff in Hoff. destruct Hoff as [Hoff Hclick].
  apply andb_true_iff in Hoff. destruct Hoff as [_ Hfourth].
  pose proof (after_handler_gate props e sti0) as Hgate.
  cbv zeta in Hgate. rewrite Hafter in Hgate. cbn [fst] in Hgate.
  destruct e as [v | v | k | |]; cbn [admits]; destruct Hgate as [Hdis _].
  - apply (IH sti1 (Some v) sti2 tri2 Hr). exact Hdis.
  - apply (IH sti1 known sti2 tri2 Hr). congruence.
  - cbn [is_fourth_radio] in Hfourth. rewrite Hfourth. cbn [andb].
    apply (IH sti1 known sti2 tri2 Hr). congruence.
  - cbn [is_SubmitClick andb] in Hclick. rewrite <- Hg, Hclick. cbn [andb].
    apply (IH sti1 known sti2 tri2 Hr). congruence.
  - apply (IH sti1 known sti2 tri2 Hr). congruence.
Qed.

Lemma run_simulation_back (t : jsstring -> jsstring) (props : Props) :
  forall evs sti0 known stp trp,
    run_events (Part000.dispatch t props) evs (forget sti0) = Some (stp, trp) ->
    Index.isDisabled sti0 = gate known ->
    admits known evs = true ->
    exists sti,
      run_events (Index.dispatch t props) evs sti0
      = Some (sti, erase_logs trp)
      /\ forget sti = stp.
Proof.
  induction evs as [| e evs IH]; intros sti0 known stp trp Hrun Hg Hadm.
  - cbn in Hrun. injection Hrun as <- <-. exists sti0. split; reflexivity.
  - cbn [run_events] in Hrun |- *.
    destruct (Part000.dispatch t props e (forget sti0))
      as [[stp1 trp1] |] eqn:Hd; [| discriminate].
    destruct (run_events (Part000.dispatch t props) evs stp1)
      as [[stp2 trp2] |] eqn:Hr; [| discriminate].
    injection Hrun as <- <-.
    apply Part000_dispatch_after in Hd. destruct Hd as [Hoff Hafter].
    destruct (handler_simulation props e sti0) as [Hst Htr].
    rewrite Hafter in Hst, Htr. cbn [fst snd] in Hst, Htr.
    pose proof (after_handler_gate props e sti0) as Hgate.
    cbv zeta in Hgate.
    assert (Hoffi : offered (Index.SaveDataModelModal t props sti0) e = true).
    { rewrite offered_simulation, Hoff. cbn [andb].
      destruct e as [v | v | k | |]; cbn [admits] in Hadm; try reflexivity.
      - apply andb_true_iff in Hadm. destruct Hadm as [Hk _].
        cbn [is_fourth_radio is_SubmitClick andb]. now rewrite Hk.
      - apply andb_true_iff in Hadm. destruct Hadm as [Hopen _].
        cbn [is_fourth_radio is_SubmitClick andb negb]. now rewrite Hg. }
    unfold Index.dispatch at 1. rewrite Hoffi.
    destruct (after (Index.handler props e) sti0) as [sti1 tri1] eqn:Hai.
    cbn [fst snd] in Hst, Htr, Hgate. subst stp1.
    assert (Hnext : exists known',
               Index.isDisabled sti1 = gate known'
               /\ admits known' evs = true).
    { destruct e as [v | v | k | |]; cbn [admits] in Hadm;
        destruct Hgate as [Hdis _].
      - exists (Some v). split; assumption.
      - exists known. split; [congruence | assumption].
      - apply andb_true_iff in Hadm. destruct Hadm as [_ Hadm].
        exists known. split; [congruence | assumption].
      - apply andb_true_iff in Hadm. destruct Hadm as [_ Hadm].
        exists known. split; [congruence | assumption].
      - exists known. split; [congruence | assumption]. }
    destruct Hnext as (known' & Hg' & Hadm').
    destruct (IH sti1 known' stp2 trp2 Hr Hg' Hadm') as (sti2 & Hri & Hf).
    rewrite Hri. exists sti2. split; [| exact Hf].
    subst tri1. unfold erase_logs. now rewrite filter_app.
Qed.

(** X6. The sessions of the first copy are exactly the sessions of the
    second that choose no fourth radio and click the submit button only
    while the last label typed passes [regexCheck]; on them the two copies
    end with the same cells and make the same calls of the props, in the
    same order (the console output of the second copy apart). *)
Theorem X6_sessions_of_the_two_copies
  (t : jsstring -> jsstring) (props : Props) (query : Query.t)
  (evs : list event) :
  (forall sti tri,
     Index.session t props query evs = Some (sti, tri) ->
     admits None evs = true
     /\ exists trp,
          Part000.session t props query evs = Some (forget sti, trp)
          /\ erase_logs trp = tri)
  /\
  (forall stp trp,
     Part000.session t props query evs = Some (stp, trp) ->
     admits None evs = true ->
     exists sti,
       Index.session t props query evs = Some (sti, erase_logs trp)
       /\ forget sti = stp).
Proof.
  split.
  - intros sti tri Hrun. split.
    + apply Index_session_run in Hrun.
      exact (Index_run_admitted t props evs _ None sti tri Hrun eq_refl).
    + exact (session_simulation t props query evs sti tri Hrun).
  - intros stp trp Hrun Hadm. apply Part000_session_run in Hrun.
    destruct (run_simulation_back t props evs (fst (Index.mount t query))
                None stp trp Hrun eq_refl Hadm) as (sti & Hri & Hf).
    exists sti. split; [| exact Hf].
    unfold Index.session. cbn [Index.mount].
    cbn [Index.mount fst] in Hri. rewrite Hri. reflexivity.
Qed.

Lemma X6_sessions_of_the_two_copies_witness :
  exists sti,
    Index.session t_id (mkProps true false) (Query.mk None None)
      [ LabelInput (lit "orders") ; RadioSelect 2 ; SubmitClick ]
    = Some ( sti,
             erase_logs
               [ HandleModelName (lit "orders") ;
                 HandleMaterializationNum 2 ;
                 ConsoleLog (LogStr (lit "materialize num radio")) ;
                 ConsoleLog (LogNum 2) ;
                 ConsoleLog (LogStr (lit "run query model click")) ;
                 RunQueryModel false ; OnHide ] )
    /\ forget sti = Part000.mkState (lit "orders") (lit "") 2.
Proof.
  apply (proj2 (X6_sessions_of_the_two_copies t_id (mkProps true false)
                  (Query.mk None None)
                  [ LabelInput (lit "orders") ; RadioSelect 2 ;
                    SubmitClick ])).
  - vm_compute. reflexivity.
  - vm_compute. reflexivity.
Defined.

(** ** The dataset update: the response and the address *)

(** X7. When the client resolves with a JSON object that has no [result]
    property, [updateDataset] still resolves, to [undefined]: the missing
    property is not turned into a rejection. *)
Theorem X7_updateDataset_without_result
  (E : Type) (JSON_stringify : JsonValue -> jsstring)
  (server : nat -> RequestConfig -> E + JsonResponse)
  (data : JsonResponse)
  (dbId datasetId : Z) (sql : jsstring) (columns : list JsonObject)
  (owners : list Z) (overrideColumns : bool)
  (Hserver : forall n rq, server n rq = inr data)
  (Hmissing : forall v, ~ In (lit "result", v) (json data)) :
  snd (settle server []
         (Part000.updateDataset E JSON_stringify dbId datasetId sql columns
            owners overrideColumns))
  = inr None.
Proof.
  unfold Part000.updateDataset, SupersetClient_put, SupersetClient_request.
  cbn [await settle app length]. rewrite Hserver.
  cbn [await settle snd]. now rewrite (get_absent _ _ Hmissing).
Qed.

Lemma X7_updateDataset_without_result_witness :
  snd (settle (fun _ _ => inr (mkResponse [ (lit "id", JNum 42) ])) []
         (Part000.updateDataset unit (fun _ => lit "{}") 1 42
            (lit "select 1") [] [7%Z] true))
  = inr None.
Proof.
  apply (X7_updateDataset_without_result unit (fun _ => lit "{}")
           (fun _ _ => inr (mkResponse [ (lit "id", JNum 42) ]))
           (mkResponse [ (lit "id", JNum 42) ])).
  - intros n rq. reflexivity.
  - intros v [H | []]. vm_compute in H. discriminate H.
Defined.

Lemma lit_inj (a b : string) : lit a = lit b -> a = b.
Proof.
  unfold lit. intros H.
  assert (Hl : list_ascii_of_string a = list_ascii_of_string b).
  { revert H. generalize (list_ascii_of_string a) (list_ascii_of_string b).
    induction l as [| x l IH]; intros [| y l'] H; try discriminate;
      [reflexivity |].
    cbn [map] in H. injection H as Hxy Hl.
    f_equal; [| now apply IH].
    rewrite <- (ascii_N_embedding x), <- (ascii_N_embedding y).
    now rewrite Hxy. }
  rewrite <- (string_of_list_ascii_of_string a),
          <- (string_of_list_ascii_of_string b).
  now rewrite Hl.
Qed.

Lemma Number_toString_inj (a b : Z) :
  Number_toString a = Number_toString b -> a = b.
Proof.
  unfold Number_toString. intros H. apply lit_inj in H.
  assert (Hnn : forall n, Z.to_int n <> Decimal.Pos Decimal.Nil
                          /\ Z.to_int n <> Decimal.Neg Decimal.Nil).
  { intros [| p | p]; cbn; split; try discriminate;
      intros [= Hp]; exact (DecimalPos.Unsigned.to_uint_nonnil p Hp). }
  apply DecimalZ.to_int_inj.
  assert (Hs : Some (Z.to_int a) = Some (Z.to_int b)).
  { rewrite <- (NilZero.isi (Z.to_int a) (proj1 (Hnn a)) (proj2 (Hnn a))).
    rewrite <- (NilZero.isi (Z.to_int b) (proj1 (Hnn b)) (proj2 (Hnn b))).
    now rewrite H. }
  now injection Hs.
Qed.

(** The part of the address after the dataset id tells the id and the
    flag apart. *)
Lemma endpoint_tail_inj (a b : jsstring) (x y : bool) :
  a ++ lit "?override_columns=" ++ Boolean_toString x
  = b ++ lit "?override_columns=" ++ Boolean_toString y ->
  a = b /\ x = y.
Proof.
  intros H.
  destruct x, y.
  - apply app_inv_tail in H. now split.
  - exfalso. apply (f_equal (@rev N)) in H. rewrite !rev_app_distr in H.
    vm_compute in H. discriminate H.
  - exfalso. apply (f_equal (@rev N)) in H. rewrite !rev_app_distr in H.
    vm_compute in H. discriminate H.
  - apply app_inv_tail in H. now split.
Qed.

(** X8. The address [updateDataset] sends its request to determines the
    dataset id and the override flag, and nothing else goes into it: two
    calls address the same resource exactly when they agree on both,
    whatever their database ids, queries, columns and owners. *)
Theorem X8_updateDataset_endpoint_injective
  (E : Type) (JSON_stringify : JsonValue -> jsstring)
  (server : nat -> RequestConfig -> E + JsonResponse)
  (dbId1 dbId2 datasetId1 datasetId2 : Z) (sql1 sql2 : jsstring)
  (columns1 columns2 : list JsonObject) (owners1 owners2 : list Z)
  (overrideColumns1 overrideColumns2 : bool) :
  map endpoint
    (fst (settle server []
            (Part000.updateDataset E JSON_stringify dbId1 datasetId1 sql1
               columns1 owners1 overrideColumns1)))
  = map endpoint
      (fst (settle server []
              (Part000.updateDataset E JSON_stringify dbId2 datasetId2 sql2
                 columns2 owners2 overrideColumns2)))
  <-> datasetId1 = datasetId2 /\ overrideColumns1 = overrideColumns2.
Proof.
  unfold Part000.updateDataset, SupersetClient_put, SupersetClient_request.
  cbn [await settle app length].
  set (r1 := server 0 _). set (r2 := server 0 _).
  assert (Hfst : forall (r : E + JsonResponse) rq,
            fst (settle server [rq]
                   (await
                      match r with
                      | inl e => Rejected e
                      | inr data => Resolve data
                      end
                      (fun data =>
                         Resolve (get (lit "result") (json data)))))
            = [rq]).
  { intros [e | data] rq; reflexivity. }
  rewrite !Hfst. cbn [map endpoint]. split.
  - intros H. apply (f_equal (hd [])) in H. cbn [hd] in H.
    apply app_inv_head in H. apply endpoint_tail_inj in H.
    destruct H as [Hid Hflag]. split; [| exact Hflag].
    now apply Number_toString_inj.
  - intros [-> ->]. reflexivity.
Qed.

(** ** Labels put together *)

(** X9. For two non-empty strings, the concatenation passes [regexCheck]
    exactly when both parts pass and the whole is at most 63 characters
    long: a valid prefix and a valid suffix make a valid label up to the
    length bound, and an invalid part cannot be repaired by what is typed
    around it. *)
Theorem X9_regexCheck_concat (a b : jsstring)
  (Ha : a <> []) (Hb : b <> []) :
  RegExp.test regexCheck (a ++ b)
  = RegExp.test regexCheck a && RegExp.test regexCheck b
    && (length a + length b <=? 63).
Proof.
  rewrite !regexCheck_test_eq, length_app, forallb_app.
  assert (Hla : 1 <= length a) by (destruct a; [contradiction | cbn; lia]).
  assert (Hlb : 1 <= length b) by (destruct b; [contradiction | cbn; lia]).
  destruct (forallb is_word_char a), (forallb is_word_char b);
    rewrite ?andb_false_r, ?andb_true_r; try reflexivity.
  apply eq_true_iff_eq.
  rewrite !andb_true_iff, !Nat.leb_le. lia.
Qed.

Lemma X9_regexCheck_concat_witness :
  RegExp.test regexCheck (lit "stg_" ++ lit "orders")
  = RegExp.test regexCheck (lit "stg_")
    && RegExp.test regexCheck (lit "orders")
    && (length (lit "stg_") + length (lit "orders") <=? 63).
Proof.
  apply (X9_regexCheck_concat (lit "stg_") (lit "orders"));
    vm_compute; discriminate.
Defined.

(** ** The console *)

Lemma Index_step_console
  (t : jsstring -> jsstring) (props : Props) (e : event)
  (st st' : Index.State) (tr : trace) :
  Index.dispatch t props e st = Some (st', tr) ->
  filter is_log tr = (fun _ : event => []) e.
Proof.
  intros Hd. apply Index_dispatch_after in Hd. destruct Hd as [_ Hafter].
  pose proof (Index_console_silent props e st) as Hs.
  now rewrite Hafter in Hs.
Qed.

Lemma Part000_step_console
  (t : jsstring -> jsstring) (props : Props) (e : event)
  (st st' : Part000.State) (tr : trace) :
  Part000.dispatch t props e st = Some (st', tr) ->
  filter is_log tr
  = match e with
    | SubmitClick => [ ConsoleLog (LogStr (lit "run query model click")) ]
    | RadioSelect k =>
        [ ConsoleLog (LogStr (lit "materialize num radio")) ;
          ConsoleLog (LogNum k) ]
    | _ => []
    end.
Proof.
  intros Hd. apply Part000_dispatch_after in Hd. destruct Hd as [_ Hafter].
  pose proof (console_output props e st) as Hs.
  now rewrite Hafter in Hs.
Qed.

Lemma flat_map_nil {A B : Type} (l : list A) :
  flat_map (fun _ : A => @nil B) l = [].
Proof. induction l as [| a l IH]; [reflexivity | exact IH]. Qed.

(** X10. In a session the first copy never prints to the console; the
    second prints one line for each click on the submit button and two for
    each radio chosen, the second of them the chosen code, and nothing
    else. *)
Theorem X10_console_of_a_session
  (t : jsstring -> jsstring) (props : Props) (query : Query.t)
  (evs : list event) :
  (forall sti tri,
     Index.session t props query evs = Some (sti, tri) ->
     filter is_log tri = [])
  /\
  (forall stp trp,
     Part000.session t props query evs = Some (stp, trp) ->
     filter is_log trp
     = flat_map
         (fun e =>
            match e with
            | SubmitClick =>
                [ ConsoleLog (LogStr (lit "run query model click")) ]
            | RadioSelect k =>
                [ ConsoleLog (LogStr (lit "materialize num radio")) ;
                  ConsoleLog (LogNum k) ]
            | _ => []
            end) evs).
Proof.
  split.
  - intros sti tri Hrun. apply Index_session_run in Hrun.
    rewrite (run_events_filter (Index.dispatch t props) is_log _
               (Index_step_console t props) evs _ sti tri Hrun).
    apply flat_map_nil.
  - intros stp trp Hrun. apply Part000_session_run in Hrun.
    exact (run_events_filter (Part000.dispatch t props) is_log _
             (Part000_step_console t props) evs _ stp trp Hrun).
Qed.

Lemma X10_console_of_a_session_witness :
  filter is_log
    [ HandleMaterializationNum 3 ;
      ConsoleLog (LogStr (lit "materialize num radio")) ;
      ConsoleLog (LogNum 3) ;
      ConsoleLog (LogStr (lit "run query model click")) ;
      RunQueryModel false ; OnHide ]
  = flat_map
      (fun e =>
         match e with
         | SubmitClick =>
             [ ConsoleLog (LogStr (lit "run query model click")) ]
         | RadioSelect k =>
             [ ConsoleLog (LogStr (lit "materialize num radio")) ;
               ConsoleLog (LogNum k) ]
         | _ => []
         end) [ RadioSelect 3 ; SubmitClick ].
Proof.
  apply (proj2 (X10_console_of_a_session t_id (mkProps true false)
                  (Query.mk None None) [ RadioSelect 3 ; SubmitClick ])
           (Part000.mkState (lit "Undefined") (lit "") 3)).
  vm_compute. reflexivity.
Defined.
